(** * Missing value imputation tool: the sanitizer, the missingness table
      and the control flow of [start_imputation]

    A shallow embedding of [Missing value imputation.py].  The script is a
    Tk front end around three libraries: pandas (cleaning, the missingness
    table), miceforest (the chained-equations engine) and matplotlib (the
    diagnostic pictures).  The embedding follows the script line by line;
    the library calls it makes are given the meaning their documentation
    gives them, and the parts of the libraries whose result depends on the
    platform or on a statistical model are kept as section variables:

    - [floatify], the conversion of one text cell by [pd.to_numeric];
    - [sort_values], the row sort of [DataFrame.sort_values] with its
      default [kind] (quicksort, which pandas documents as not stable);
    - [mf_ImputationKernel], [mice_iteration] and [complete_data], the
      miceforest kernel.

    Idealisations: a finite float is an exact rational and numbers carry
    no dtype; text is ASCII; a cell is a number or a text (no booleans, no
    dates); writing a workbook or a picture always succeeds; what is
    raised is an instance of Python's [Exception]. *)

From Stdlib Require Import List String Ascii Bool Arith ZArith QArith Qround.
From Stdlib Require Import Lia Lqa ListDec Permutation Sorted DecimalString.
Import ListNotations.

Close Scope Q_scope.
Open Scope string_scope.
Open Scope nat_scope.

Set Implicit Arguments.

(** ** Python exceptions and fallible computations *)

Record exn := Exception { exn_type : string; exn_arg : string }.

Definition result (A : Type) : Type := (exn + A)%type.

Definition ret {A} (a : A) : result A := inr a.
Definition raise {A} (e : exn) : result A := inl e.

Definition bind {A B} (m : result A) (k : A -> result B) : result B :=
  match m with
  | inl e => inl e
  | inr a => k a
  end.

Notation "x <- m ;; k" := (bind m (fun x => k))
  (at level 61, m at next level, right associativity).

Definition KeyError (key : string) : exn := Exception "KeyError" key.
Definition TypeError : exn :=
  Exception "TypeError" "arg must be a list, tuple, 1-d array, or Series".
Definition ValueError : exn :=
  Exception "ValueError" "The truth value of a Series is ambiguous".

(** ** The fragment of pandas the script uses *)

(** A float64 value.  [NaN] is pandas' marker of a missing cell. *)
Inductive number :=
| Finite (q : Q)
| PosInf
| NegInf
| NaN.

(** A cell as [read_csv] / [read_excel] deliver it. *)
Inductive scalar :=
| Num (x : number)
| Str (s : string).

Definition nan : scalar := Num NaN.

(** A DataFrame: its columns in order, each a label and its values.
    Labels may repeat (pandas allows it); a frame from the loader has as
    many values in every column as it has rows. *)
Definition column : Type := (string * list scalar)%type.
Definition frame : Type := list column.

Definition columns (df : frame) : list string := map fst df.

(** [len(df)] *)
Definition len (df : frame) : nat :=
  match df with
  | [] => 0
  | (_, v) :: _ => List.length v
  end.

Definition rectangular (df : frame) : Prop :=
  Forall (fun c : column => List.length (snd c) = len df) df.

(** [Series.isna] / [isnull] on one cell *)
Definition isna (c : scalar) : bool :=
  match c with
  | Num NaN => true
  | _ => false
  end.

(** [df.replace(...)]: the same substitution in every cell *)
Definition replace (f : scalar -> scalar) (df : frame) : frame :=
  map (fun c : column => (fst c, map f (snd c))) df.

(** [to_replace = [np.inf, -np.inf], value = np.nan] *)
Definition inf_to_nan (c : scalar) : scalar :=
  match c with
  | Num PosInf | Num NegInf => nan
  | _ => c
  end.

(** Python's [\s] on ASCII text: tab, line feed, vertical tab, form feed,
    carriage return, the four separators 28..31 and the space. *)
Definition is_space (a : ascii) : bool :=
  let n := nat_of_ascii a in
  ((9 <=? n) && (n <=? 13)) || ((28 <=? n) && (n <=? 32)).

(** Whether [re.search(r'^\s*$', s)] succeeds *)
Fixpoint blank (s : string) : bool :=
  match s with
  | EmptyString => true
  | String a rest => is_space a && blank rest
  end.

(** [to_replace = r'^\s*$', value = np.nan, regex = True] *)
Definition blank_to_nan (c : scalar) : scalar :=
  match c with
  | Str s => if blank s then nan else c
  | Num _ => c
  end.

Definition label_is (col : string) (c : column) : bool := String.eqb (fst c) col.

(** [df[col]]: every column carrying the label *)
Definition getitem (df : frame) (col : string) : list column :=
  filter (label_is col) df.

(** [col in num_cols] *)
Definition mem (col : string) (l : list string) : bool :=
  existsb (String.eqb col) l.

Section ToNumeric.

(** What pandas makes of one text cell: [Some x] when it reads as a
    number, [None] when it does not. *)
Variable floatify : string -> option number.

(** [pd.to_numeric(..., errors='coerce')] on one cell *)
Definition to_numeric (c : scalar) : scalar :=
  match c with
  | Num x => Num x
  | Str s =>
      match floatify s with
      | Some x => Num x
      | None => nan
      end
  end.

(** [df[col] = pd.to_numeric(df[col], errors='coerce')].  A label absent
    from the frame raises KeyError in [df[col]]; a repeated label makes
    [df[col]] a DataFrame, which [to_numeric] refuses with TypeError. *)
Definition setitem_to_numeric (col : string) (df : frame) : result frame :=
  match getitem df col with
  | [] => raise (KeyError col)
  | [_] =>
      ret (map (fun c : column =>
                  if label_is col c then (fst c, map to_numeric (snd c)) else c) df)
  | _ :: _ :: _ => raise TypeError
  end.

(** [for col in num_cols: df[col] = pd.to_numeric(df[col], errors='coerce')] *)
Fixpoint coerce_columns (num_cols : list string) (df : frame) : result frame :=
  match num_cols with
  | [] => ret df
  | col :: rest =>
      df' <- setitem_to_numeric col df ;;
      coerce_columns rest df'
  end.

(** Lines 78 to 86 of [start_imputation]: the cleaning of the loaded data *)
Definition sanitize (num_cols : list string) (data : frame) : result frame :=
  let df := data in
  let df := replace inf_to_nan df in
  let df := replace blank_to_nan df in
  coerce_columns num_cols df.

(** What the three steps do to one cell, in the order of the script *)
Definition sanitize_cell (continuous : bool) (c : scalar) : scalar :=
  let c := inf_to_nan c in
  let c := blank_to_nan c in
  if continuous then to_numeric c else c.

(** One pass of the coercion loop converts exactly the selected columns. *)
Definition coerced (num_cols : list string) (df : frame) : frame :=
  map (fun c : column =>
         (fst c, map (fun x => if mem (fst c) num_cols then to_numeric x else x)
                     (snd c))) df.

(** The frame the cleaning produces when it returns *)
Definition sanitized (num_cols : list string) (data : frame) : frame :=
  map (fun c : column =>
         (fst c, map (sanitize_cell (mem (fst c) num_cols)) (snd c))) data.



End ToNumeric.

(** ** The missingness table *)

(** One row of the table: variable, missing_n, missing_pct(%) *)
Record row := Row { variable : string; missing_n : nat; missing_pct : number }.

Definition table : Type := list row.

(** [Series.isna().sum()] for one column *)
Definition count_na (v : list scalar) : nat := List.length (filter isna v).

(** Every cell of the frame, and how many of them are missing *)
Definition cells (df : frame) : list scalar := List.concat (map snd df).

Definition total_na (df : frame) : nat := count_na (cells df).

(** [miss_n / total] on an integer Series: 0/0 is NaN, n/0 is infinite *)
Definition true_divide (n total : nat) : number :=
  match total with
  | 0 => match n with 0 => NaN | S _ => PosInf end
  | S _ => Finite (Z.of_nat n # Pos.of_nat total)
  end.

Definition scale (x : number) (k : Q) : number :=
  match x with
  | Finite q => Finite (q * k)%Q
  | other => other
  end.

(** Rounding to the nearest integer, halves to the even neighbour *)
Definition rint (q : Q) : Z :=
  let f := Qfloor q in
  match (2 * (q - inject_Z f) ?= 1)%Q with
  | Lt => f
  | Gt => (f + 1)%Z
  | Eq => if Z.even f then f else (f + 1)%Z
  end.

(** [.round(2)] *)
Definition round2 (x : number) : number :=
  match x with
  | Finite q => Finite (Qred (rint (q * 100)%Q # 100))
  | other => other
  end.

(** [(miss_n / total * 100.0).round(2)] for one column *)
Definition pct (n total : nat) : number := round2 (scale (true_divide n total) 100%Q).

Definition row_of (total : nat) (c : column) : row :=
  Row (fst c) (count_na (snd c)) (pct (count_na (snd c)) total).

(** [pd.DataFrame({"variable": ..., "missing_n": ..., "missing_pct(%)": ...})] *)
Fixpoint DataFrame (variable : list string) (missing_n : list nat)
                   (missing_pct : list number) : table :=
  match variable, missing_n, missing_pct with
  | v :: vs, n :: ns, p :: ps => Row v n p :: DataFrame vs ns ps
  | _, _, _ => []
  end.

Section MissingnessTable.

(** [DataFrame.sort_values("missing_pct(%)", ascending=False)] *)
Variable sort_values : table -> table.

Definition make_missingness_table (df : frame) : table :=
  let total := len df in
  let miss_n := map (fun c : column => count_na (snd c)) df in
  let miss_pct := map (fun n => round2 (scale (true_divide n total) 100%Q)) miss_n in
  let out := sort_values (DataFrame (columns df) miss_n miss_pct) in
  out.

End MissingnessTable.

(** The order [sort_values] leaves the rows in: larger percentages first,
    NaN percentages last. *)
Definition number_leb (x y : number) : bool :=
  match x, y with
  | NaN, _ | _, NaN => false
  | NegInf, _ => true
  | _, PosInf => true
  | Finite p, Finite q => Qle_bool p q
  | _, _ => false
  end.

Definition may_precede (r1 r2 : row) : bool :=
  match missing_pct r2 with
  | NaN => true
  | y => number_leb y (missing_pct r1)
  end.

(** What pandas promises of [sort_values] whatever the [kind] *)
Record sorts (sort_values : table -> table) : Prop := {
  sorts_perm : forall t, Permutation (sort_values t) t;
  sorts_sorted : forall t, StronglySorted (fun r1 r2 => may_precede r1 r2 = true) (sort_values t)
}.


(** ** The columns with a missing value *)

(** [df[col].isnull().any()] on a column *)
Definition has_na (c : column) : bool := existsb isna (snd c).

(** [df[col].isnull().any()] used as a condition.  With a repeated label
    [df[col]] is a DataFrame, [.any()] a Series, and its truth value raises
    ValueError. *)
Definition any_null (df : frame) (col : string) : result bool :=
  match getitem df col with
  | [] => raise (KeyError col)
  | [c] => ret (existsb isna (snd c))
  | _ :: _ :: _ => raise ValueError
  end.

(** [[col for col in cols if df[col].isnull().any()]] *)
Fixpoint select_missing (df : frame) (cols : list string) : result (list string) :=
  match cols with
  | [] => ret []
  | col :: rest =>
      b <- any_null df col ;;
      tl <- select_missing df rest ;;
      ret (if b then col :: tl else tl)
  end.

Definition missing_columns (df : frame) : result (list string) :=
  select_missing df (columns df).

(** ** The state shared by the callbacks *)

Inductive sheet :=
| TableSheet (t : table)
| FrameSheet (df : frame).

(** What a run leaves on disk: a workbook with its named sheets, or the
    picture [name.png] in a folder. *)
Inductive file :=
| Workbook (path : string) (sheets : list (string * sheet))
| Png (folder : string) (name : string).

(** The message boxes of the script *)
Inductive dialog :=
| showerror_no_data            (* error: choose a data file first *)
| showinfo_no_missing          (* info: no missing value, nothing to impute *)
| showinfo_done                (* info: imputation finished *)
| showerror_failed (e : exn).  (* error: imputation failed, with str(e) *)

Record world := World {
  data : option frame;                (* the global [data] *)
  curselection : list nat;            (* rows selected in [listbox_num] *)
  output_excel_path : option string;  (* the global [output_excel_path] *)
  output_folder : option string;      (* the global [output_folder] *)
  entropy : N;                        (* what an unseeded generator would draw from *)
  files : list file;
  dialogs : list dialog
}.

(** [listbox_num.get(i)]: [load_columns] fills the listbox with the
    labels of [data], in order, each time it sets [data] *)
Definition listbox_get (items : list string) (i : nat) : string := nth i items "".

(** Truth value of a path picked in a dialog: unset and empty are false *)
Definition chosen (p : option string) : option string :=
  match p with
  | Some "" => None
  | other => other
  end.

Definition messagebox (d : dialog) (w : world) : world :=
  World (data w) (curselection w) (output_excel_path w) (output_folder w)
        (entropy w) (files w) (dialogs w ++ [d]).

Definition add_files (fs : list file) (w : world) : world :=
  World (data w) (curselection w) (output_excel_path w) (output_folder w)
        (entropy w) (files w ++ fs) (dialogs w).

(** [with pd.ExcelWriter(output_excel_path) as writer: ...to_excel(...)] *)
Definition save_workbook (sheets : list (string * sheet)) (w : world) : world :=
  match chosen (output_excel_path w) with
  | Some path => add_files [Workbook path sheets] w
  | None => w
  end.

(** The plotting loop: one picture per column that had missing values *)
Definition save_figures (missing : list string) (w : world) : world :=
  match chosen (output_folder w) with
  | Some folder => add_files (map (Png folder) missing) w
  | None => w
  end.

(** How a call of [start_imputation] ended, with the values it computed *)
Inductive outcome :=
| NoData
| Raised (e : exn)
| NothingToImpute (missingness_df : table) (df : frame)
| Imputed (missingness_df : table) (df completed_df : frame)
| Failed (missingness_df : table) (df : frame) (e : exn).

(** The completed datasets a run hands out *)
Definition completed_datasets (o : outcome) : list frame :=
  match o with
  | Imputed _ _ completed_df => [completed_df]
  | _ => []
  end.

(** [[listbox_num.get(i) for i in listbox_num.curselection()]] *)
Definition num_cols_of (w : world) (raw : frame) : list string :=
  map (listbox_get (columns raw)) (curselection w).

Section Run.

Variable floatify : string -> option number.
Variable sort_values : table -> table.

(** The miceforest kernel.  [mf_ImputationKernel df random_state e] builds
    it; without a [random_state] it seeds itself from [e]. *)
Variable kernel : Type.
Variable mf_ImputationKernel : frame -> option Z -> N -> result kernel.
Variable mice_iteration : kernel -> result kernel.
Variable complete_data : kernel -> nat -> result frame.

(** A run that reaches the [try] block: data is loaded, the cleaning
    returns [df], and [missing] lists its columns with a missing value. *)
Definition reaches_engine (w : world) (df : frame) (missing : list string) : Prop :=
  exists raw, data w = Some raw
              /\ sanitize floatify (num_cols_of w raw) raw = inr df
              /\ missing_columns df = inr missing
              /\ missing <> [].

(** [kernel.mice(iterations)] *)
Fixpoint mice (k : kernel) (iterations : nat) : result kernel :=
  match iterations with
  | 0 => ret k
  | S n =>
      k' <- mice_iteration k ;;
      mice k' n
  end.

(** Lines 102 to 104: the three library calls inside [try] *)
Definition impute (df : frame) (e : N) : result frame :=
  kernel <- mf_ImputationKernel df (Some 42%Z) e ;;
  kernel <- mice kernel 3 ;;
  complete_data kernel 0.

Definition start_imputation (w : world) : world * outcome :=
  match data w with
  | None => (messagebox showerror_no_data w, NoData)
  | Some data =>
      let num_cols := map (listbox_get (columns data)) (curselection w) in
      match sanitize floatify num_cols data with
      | inl e => (w, Raised e)
      | inr df =>
          let missingness_df := make_missingness_table sort_values df in
          match missing_columns df with
          | inl e => (w, Raised e)
          | inr [] =>
              let w := save_workbook [("Missingness", TableSheet missingness_df);
                                      ("Data_Original", FrameSheet df)] w in
              (messagebox showinfo_no_missing w, NothingToImpute missingness_df df)
          | inr ((_ :: _) as missing) =>
              match impute df (entropy w) with
              | inr completed_df =>
                  let w := save_workbook [("Missingness", TableSheet missingness_df);
                                          ("Data_Original", FrameSheet df);
                                          ("Data_Imputed", FrameSheet completed_df)] w in
                  let w := save_figures missing w in
                  (messagebox showinfo_done w, Imputed missingness_df df completed_df)
              | inl e =>
                  (messagebox (showerror_failed e) w, Failed missingness_df df e)
              end
          end
      end
  end.

End Run.

(** ** What the libraries promise *)

Section Contracts.

Variable kernel : Type.
Variable mf_ImputationKernel : frame -> option Z -> N -> result kernel.
Variable mice_iteration : kernel -> result kernel.
Variable complete_data : kernel -> nat -> result frame.

(** Modelled from the spec: the chained-equations engine, which the script
    delegates to miceforest and which is not part of the repository.  The
    spec (4.3, steps 1, 2c and 3) has the engine fill each missing cell
    with a value and overwrite only the rows that were missing, never the
    observed ones; the working copy after the last pass is the completed
    dataset.  [imputed c c'] relates a cell to the cell returned in its
    place: an observed cell is returned as it is, a missing one is
    replaced by a value. *)
Definition imputed (c c' : scalar) : Prop :=
  if isna c then isna c' = false else c' = c.

(** Modelled from the spec: a frame and its completed form as the engine
    of the spec (4.3) returns it: the same columns under the same labels,
    cell by cell as [imputed] says. *)
Definition completes (df out : frame) : Prop :=
  Forall2 (fun c c' : column => fst c' = fst c /\ Forall2 imputed (snd c) (snd c')) df out.

(** Modelled from the spec: the engine of the spec (4.3) behind the three
    calls the script makes.  The kernel works on a copy of the frame it
    was built from ([working_data]), an iteration leaves the observed data
    alone, and [complete_data] returns the copy with its missing cells
    imputed. *)
Record imputes_missing_cells (working_data : kernel -> frame) : Prop := {
  kernel_copies_data :
    forall df rs e k, mf_ImputationKernel df rs e = inr k -> working_data k = df;
  mice_keeps_data :
    forall k k', mice_iteration k = inr k' -> working_data k' = working_data k;
  complete_data_imputes :
    forall k i out, complete_data k i = inr out -> completes (working_data k) out
}.

(** One of the three library calls of the [try] block raises [e]:
    building the kernel, the three iterations, or extracting dataset 0. *)
Definition engine_raises (df : frame) (ent : N) (e : exn) : Prop :=
  mf_ImputationKernel df (Some 42%Z) ent = inl e
  \/ (exists k0, mf_ImputationKernel df (Some 42%Z) ent = inr k0
                 /\ mice mice_iteration k0 3 = inl e)
  \/ (exists k0 k3, mf_ImputationKernel df (Some 42%Z) ent = inr k0
                    /\ mice mice_iteration k0 3 = inr k3
                    /\ complete_data k3 0 = inl e).

(** Modelled from the spec: the seed of the engine, which is inside
    miceforest and not part of the repository.  The spec (4.3) has a
    deterministic seed control all randomized steps: a kernel built with a
    [random_state] draws nothing from elsewhere. *)
Definition seeded : Prop :=
  forall df s e1 e2,
    mf_ImputationKernel df (Some s) e1 = mf_ImputationKernel df (Some s) e2.

End Contracts.

(** No cell of the frame is missing *)
Definition no_missing (df : frame) : Prop :=
  Forall (fun c : column => Forall (fun x => isna x = false) (snd c)) df.

(** ** Instances to run the model on *)

(** Insertion sort of the rows, larger percentages first and NaN last;
    [before r r'] tells whether the row [r] being inserted stops in front
    of [r']. *)
Fixpoint insert_row (before : row -> row -> bool) (r : row) (t : table) : table :=
  match t with
  | [] => [r]
  | r' :: t' => if before r r' then r :: t else r' :: insert_row before r t'
  end.

(** A stable sort, what [kind='stable'] would give: rows that tie stay in
    the order they had. *)
Definition sort_values_stable (t : table) : table :=
  fold_right (insert_row may_precede) [] t.


(** A reader of integer literals and of the words inf and -inf: a
    fragment of what [pd.to_numeric] reads. *)
Definition digit (a : ascii) : option Z :=
  let n := nat_of_ascii a in
  if (48 <=? n) && (n <=? 57) then Some (Z.of_nat (n - 48)) else None.

Fixpoint digits (acc : Z) (s : string) : option Z :=
  match s with
  | EmptyString => Some acc
  | String a rest =>
      match digit a with
      | Some d => digits (10 * acc + d)%Z rest
      | None => None
      end
  end.

Definition floatify_literals (s : string) : option number :=
  if String.eqb s "inf" then Some PosInf
  else if String.eqb s "-inf" then Some NegInf
  else match s with
       | EmptyString => None
       | String "-" EmptyString => None
       | String "-" rest => option_map (fun z => Finite (inject_Z (- z))) (digits 0 rest)
       | _ => option_map (fun z => Finite (inject_Z z)) (digits 0 s)
       end.

(** A small kernel: it refuses a frame with a text cell or with a column
    without any observed value, and imputes every missing cell of a column
    with one observed value of that column, picked by the seed. *)
Record donor_kernel := DonorKernel { working : frame; seed : N; rounds : nat }.

Definition is_text (c : scalar) : bool :=
  match c with
  | Str _ => true
  | Num _ => false
  end.

Definition observed (v : list scalar) : list scalar := filter (fun x => negb (isna x)) v.

Definition unusable (c : column) : bool :=
  existsb is_text (snd c) || match observed (snd c) with [] => true | _ :: _ => false end.

Definition donor_ImputationKernel (df : frame) (random_state : option Z) (e : N)
  : result donor_kernel :=
  if existsb unusable df
  then raise (Exception "ValueError" "cannot impute this frame")
  else ret (DonorKernel df (match random_state with Some z => Z.to_N z | None => e end) 0).

Definition donor_mice_iteration (k : donor_kernel) : result donor_kernel :=
  ret (DonorKernel (working k) (seed k) (S (rounds k))).

Definition donor (s : N) (v : list scalar) : scalar :=
  let obs := observed v in
  nth (N.to_nat s mod List.length obs) obs (Num (Finite 0)).

Definition fill (s : N) (c : column) : column :=
  (fst c, map (fun x => if isna x then donor s (snd c) else x) (snd c)).

Definition donor_complete_data (k : donor_kernel) (dataset : nat) : result frame :=
  match dataset with
  | 0 =>
      if existsb unusable (working k)
      then raise (Exception "ValueError" "cannot impute this frame")
      else ret (map (fill (seed k)) (working k))
  | S _ => raise (Exception "IndexError" "no such dataset")
  end.

(** ** Example data *)

Definition whole (z : Z) : scalar := Num (Finite (inject_Z z)).

(** A sheet with a numeric column read as text and a complete numeric
    column; the first column is selected as continuous. *)
Definition numeric_raw : frame :=
  [("age", [Str "23"; Str " "; Str "41"]); ("score", [whole 1; whole 2; whole 3])].

Definition numeric_world (ent : N) (excel folder : option string) : world :=
  World (Some numeric_raw) [0] excel folder ent [] [].

(** A sheet with a text column *)
Definition text_raw : frame :=
  [("age", [Str "23"; Str " "; Str "41"]); ("grade", [Str "A"; Str "B"; Str "A"])].

Definition text_world : world :=
  World (Some text_raw) [0] (Some "out.xlsx") (Some "figures") 7%N [] [].

(** A sheet without an empty cell *)
Definition full_raw : frame :=
  [("age", [Str "23"; Str "41"]); ("score", [whole 1; whole 2])].

Definition full_world : world :=
  World (Some full_raw) [0] (Some "out.xlsx") None 7%N [] [].

(** A sheet that has a header line and no row under it *)
Definition header_only : frame := [("age", []); ("grade", [])].

Definition header_only_world : world :=
  World (Some header_only) [0] (Some "out.xlsx") None 7%N [] [].



(** ** The other callbacks of the window *)

(** [str.lower] on ASCII text *)
Definition lower_ascii (a : ascii) : ascii :=
  let n := nat_of_ascii a in
  if (65 <=? n) && (n <=? 90) then ascii_of_nat (n + 32) else a.

Fixpoint lower (s : string) : string :=
  match s with
  | EmptyString => EmptyString
  | String a rest => String (lower_ascii a) (lower rest)
  end.

(** [s.endswith(suffix)]: some tail of [s] is [suffix] *)
Fixpoint endswith (s suffix : string) : bool :=
  String.eqb s suffix ||
  match s with
  | EmptyString => false
  | String _ rest => endswith rest suffix
  end.

(** The globals and widgets beside those of [world]: the path of the
    loaded file, the rows of the listbox and the texts of the three labels
    ([None]: the text the window starts with; [Some p]: the text that
    shows [p]). *)
Record gui := Gui {
  session : world;
  file_path : option string;
  listbox_num : list string;
  file_label : option string;
  folder_label : option string;
  excel_label : option string
}.

Definition AttributeError : exn :=
  Exception "AttributeError" "'NoneType' object has no attribute 'lower'".

(** The window before any button is pressed *)
Definition initial (ent : N) : gui :=
  Gui (World None [] None None ent [] []) None [] None None None.

(** What the user does with the window.  A file dialog answers with the
    chosen path, or with the empty text when it is cancelled. *)
Inductive action :=
| press_select_file (answer : string)
| press_select_output_folder (answer : string)
| press_select_output_excel (answer : string)
| pick_rows (rows : list nat)
| press_start.

(** The listbox has [selectmode=tk.MULTIPLE]: the user can select any of
    its rows, and only those. *)
Definition select_rows (rows : list nat) (g : gui) : gui :=
  let w := session g in
  Gui (World (data w) (filter (fun i => i <? List.length (listbox_num g)) rows)
             (output_excel_path w) (output_folder w) (entropy w) (files w) (dialogs w))
      (file_path g) (listbox_num g) (file_label g) (folder_label g) (excel_label g).

(** [listbox_num] and [data] agree, and only rows of the listbox are
    selected. *)
Definition consistent (g : gui) : Prop :=
  listbox_num g = match data (session g) with
                  | Some df => columns df
                  | None => []
                  end
  /\ Forall (fun i => i < List.length (listbox_num g)) (curselection (session g)).

Section Callbacks.

(** The readers of pandas on the files of the machine; [L] is what a
    column label may be before [df.columns.map(str)]. *)
Variable L : Type.
Variable str : L -> string.
Variable read_csv : string -> result (list (L * list scalar)).
Variable read_excel : string -> result (list (L * list scalar)).

(** [load_columns].  Emptying the listbox also empties its selection. *)
Definition load_columns (g : gui) : gui * option exn :=
  match file_path g with
  | None => (g, Some AttributeError)
  | Some path =>
      match (if endswith (lower path) ".csv" then read_csv path else read_excel path) with
      | inl e => (g, Some e)
      | inr df =>
          let df := map (fun c : L * list scalar => (str (fst c), snd c)) df in
          let w := session g in
          (Gui (World (Some df) [] (output_excel_path w) (output_folder w)
                      (entropy w) (files w) (dialogs w))
               (file_path g) (columns df) (file_label g) (folder_label g) (excel_label g),
           None)
      end
  end.

(** [select_file]; [answer] is what [askopenfilename] returned *)
Definition select_file (answer : string) (g : gui) : gui * option exn :=
  let g := Gui (session g) (Some answer) (listbox_num g)
               (file_label g) (folder_label g) (excel_label g) in
  match answer with
  | EmptyString => (g, None)
  | String _ _ =>
      let g := Gui (session g) (file_path g) (listbox_num g)
                   (Some answer) (folder_label g) (excel_label g) in
      load_columns g
  end.

(** [select_output_folder]; [answer] is what [askdirectory] returned *)
Definition select_output_folder (answer : string) (g : gui) : gui :=
  let w := session g in
  let w := World (data w) (curselection w) (output_excel_path w) (Some answer)
                 (entropy w) (files w) (dialogs w) in
  Gui w (file_path g) (listbox_num g) (file_label g)
      (match answer with EmptyString => folder_label g | String _ _ => Some answer end)
      (excel_label g).

(** [select_output_excel]; [answer] is what [asksaveasfilename] returned *)
Definition select_output_excel (answer : string) (g : gui) : gui :=
  let w := session g in
  let w := World (data w) (curselection w) (Some answer) (output_folder w)
                 (entropy w) (files w) (dialogs w) in
  Gui w (file_path g) (listbox_num g) (file_label g) (folder_label g)
      (match answer with EmptyString => excel_label g | String _ _ => Some answer end).

Variable floatify : string -> option number.
Variable sort_values : table -> table.
Variable kernel : Type.
Variable mf_ImputationKernel : frame -> option Z -> N -> result kernel.
Variable mice_iteration : kernel -> result kernel.
Variable complete_data : kernel -> nat -> result frame.

(** One action of the user; an exception that leaves a callback is
    reported by Tk and the window goes on. *)
Definition step (g : gui) (a : action) : gui :=
  match a with
  | press_select_file answer => fst (select_file answer g)
  | press_select_output_folder answer => select_output_folder answer g
  | press_select_output_excel answer => select_output_excel answer g
  | pick_rows rows => select_rows rows g
  | press_start =>
      Gui (fst (start_imputation floatify sort_values mf_ImputationKernel
                                 mice_iteration complete_data (session g)))
          (file_path g) (listbox_num g) (file_label g) (folder_label g) (excel_label g)
  end.

Definition after (actions : list action) (g : gui) : gui := fold_left step actions g.

End Callbacks.

(** Telling the workbooks from the pictures *)
Definition is_workbook (f : file) : bool :=
  match f with
  | Workbook _ _ => true
  | Png _ _ => false
  end.

(** The workbook written for a path picked in the dialog, if one was *)
Definition workbook_at (p : option string) (sheets : list (string * sheet)) : list file :=
  match chosen p with
  | Some path => [Workbook path sheets]
  | None => []
  end.

(** The pictures written into a folder picked in the dialog, if one was *)
Definition figures_at (p : option string) (missing : list string) : list file :=
  match chosen p with
  | Some folder => map (Png folder) missing
  | None => []
  end.

(** The exceptions pandas raises in the script outside [try] *)
Definition from_pandas (e : exn) : Prop :=
  e = TypeError \/ e = ValueError \/ exists key, e = KeyError key.

(** ** Example files *)

(** A column label as a reader delivers it: a text, or a number when the
    header cell of a sheet holds one; [py_str] is Python's [str] on it. *)
Inductive py_label :=
| IntLabel (z : Z)
| StrLabel (s : string).

Definition py_str (l : py_label) : string :=
  match l with
  | IntLabel z => NilZero.string_of_int (Z.to_int z)
  | StrLabel s => s
  end.

Definition FileNotFoundError : exn :=
  Exception "FileNotFoundError" "No such file or directory".

(** A disk with one delimited file and one sheet; the header of the sheet
    holds the number 1 and the text 1. *)
Definition disk_csv (path : string) : result (list (py_label * list scalar)) :=
  if String.eqb path "data.CSV"
  then ret [(StrLabel "age", [Str "23"; Str " "; Str "41"]);
            (StrLabel "score", [whole 1; whole 2; whole 3])]
  else raise FileNotFoundError.

Definition disk_excel (path : string) : result (list (py_label * list scalar)) :=
  if String.eqb path "sheet.xlsx"
  then ret [(IntLabel 1, [whole 5; whole 6]); (StrLabel "1", [whole 7; nan])]
  else raise FileNotFoundError.

(** A frame with a column that is entirely missing *)
Definition gap_raw : frame :=
  [("age", [whole 23; nan; whole 41; whole 30]); ("note", [nan; nan; nan; nan]);
   ("score", [whole 1; whole 2; nan; nan])].

(** * Properties *)

(** ** Labels and the columns they select *)

Lemma label_is_true (col : string) (c : column) : label_is col c = true <-> fst c = col.
Proof. unfold label_is. apply String.eqb_eq. Qed.

Lemma label_is_false (col : string) (c : column) : label_is col c = false <-> fst c <> col.
Proof. unfold label_is. apply String.eqb_neq. Qed.

Lemma getitem_absent (df : frame) (col : string) :
  ~ In col (columns df) -> getitem df col = [].
Proof.
  unfold getitem, columns. induction df as [|c df IH]; simpl; intros Hin.
  - reflexivity.
  - destruct (label_is col c) eqn:E.
    + apply label_is_true in E. exfalso. apply Hin. now left.
    + apply IH. intros H. apply Hin. now right.
Qed.

Lemma getitem_unique (df : frame) (c : column) :
  NoDup (columns df) -> In c df -> getitem df (fst c) = [c].
Proof.
  unfold getitem, columns. induction df as [|d df IH]; simpl; intros Hnd Hin.
  - contradiction.
  - inversion Hnd as [|? ? Hnotin Hnd']; subst.
    destruct Hin as [->|Hin].
    + assert (E : label_is (fst c) c = true) by now apply label_is_true.
      rewrite E. f_equal. now apply getitem_absent.
    + destruct (label_is (fst c) d) eqn:E.
      * apply label_is_true in E. exfalso. apply Hnotin. rewrite E.
        now apply in_map.
      * now apply IH.
Qed.


Lemma columns_replace (f : scalar -> scalar) (df : frame) :
  columns (replace f df) = columns df.
Proof.
  unfold columns, replace. rewrite map_map. now apply map_ext.
Qed.

Lemma mem_true (col : string) (l : list string) : mem col l = true <-> In col l.
Proof.
  unfold mem. rewrite existsb_exists. split.
  - intros [x [Hin E]]. apply String.eqb_eq in E. now subst.
  - intros Hin. exists col. split; [assumption | apply String.eqb_refl].
Qed.

(** ** The sanitizer, cell by cell *)

Section SanitizerFacts.

Variable floatify : string -> option number.

Lemma to_numeric_idempotent (c : scalar) :
  to_numeric floatify (to_numeric floatify c) = to_numeric floatify c.
Proof.
  destruct c as [x|s]; simpl; [reflexivity|].
  destruct (floatify s); reflexivity.
Qed.

Lemma columns_coerced (num_cols : list string) (df : frame) :
  columns (coerced floatify num_cols df) = columns df.
Proof.
  unfold columns, coerced. rewrite map_map. now apply map_ext.
Qed.


Lemma coerced_cons (col : string) (rest : list string) (df : frame) :
  coerced floatify rest (coerced floatify [col] df) = coerced floatify (col :: rest) df.
Proof.
  unfold coerced. rewrite map_map. apply map_ext. intros [n v]; simpl.
  f_equal. rewrite map_map. apply map_ext. intros x.
  unfold mem; simpl. rewrite orb_false_r.
  destruct (String.eqb n col); simpl.
  - destruct (existsb (String.eqb n) rest);
      [apply to_numeric_idempotent | reflexivity].
  - reflexivity.
Qed.


(** Whenever the loop returns, it has done the same. *)
Lemma coerce_columns_inr (num_cols : list string) :
  forall df df', coerce_columns floatify num_cols df = inr df' ->
  df' = coerced floatify num_cols df.
Proof.
  induction num_cols as [|col rest IH]; intros df df' H; simpl in H.
  - injection H as <-. unfold coerced. rewrite <- (map_id df) at 1. apply map_ext.
    intros [n v]; simpl. f_equal. symmetry. apply map_id.
  - unfold setitem_to_numeric in H.
    destruct (getitem df col) as [|c [|c' l]]; simpl in H; try discriminate.
    apply IH in H. rewrite H. rewrite <- coerced_cons. f_equal.
    unfold coerced. apply map_ext. intros d. unfold mem; simpl. unfold label_is.
    rewrite orb_false_r. destruct (String.eqb (fst d) col); [reflexivity|].
    destruct d as [n v]; simpl. f_equal. symmetry. apply map_id.
Qed.

Lemma coerced_replace (num_cols : list string) (data : frame) :
  coerced floatify num_cols (replace blank_to_nan (replace inf_to_nan data))
  = sanitized floatify num_cols data.
Proof.
  unfold coerced, replace, sanitized. rewrite !map_map. apply map_ext.
  intros [n v]; simpl. f_equal. rewrite !map_map. apply map_ext. intros x.
  unfold sanitize_cell. now destruct (mem n num_cols).
Qed.

Lemma columns_sanitized (num_cols : list string) (data : frame) :
  columns (sanitized floatify num_cols data) = columns data.
Proof.
  unfold columns, sanitized. rewrite map_map. now apply map_ext.
Qed.

Lemma sanitize_inr (num_cols : list string) (data df : frame) :
  sanitize floatify num_cols data = inr df -> df = sanitized floatify num_cols data.
Proof.
  unfold sanitize. intros H. apply coerce_columns_inr in H.
  now rewrite coerced_replace in H.
Qed.






End SanitizerFacts.

(** ** The missingness table *)

Lemma number_leb_trans (x y z : number) :
  number_leb x y = true -> number_leb y z = true -> number_leb x z = true.
Proof.
  destruct x as [p| | |], y as [q| | |], z as [r| | |]; simpl;
    try reflexivity; try discriminate.
  intros H1 H2. apply Qle_bool_iff in H1, H2. apply Qle_bool_iff.
  now apply Qle_trans with q.
Qed.

Lemma number_leb_total (x y : number) :
  x <> NaN -> y <> NaN -> number_leb x y = true \/ number_leb y x = true.
Proof.
  destruct x as [p| | |], y as [q| | |]; simpl; intros Hx Hy;
    try (now left); try (now right); try congruence.
  destruct (Qlt_le_dec p q) as [H|H].
  - left. apply Qle_bool_iff. now apply Qlt_le_weak.
  - right. now apply Qle_bool_iff.
Qed.

Lemma number_leb_not_nan (x y : number) :
  number_leb x y = true -> x <> NaN /\ y <> NaN.
Proof.
  destruct x, y; simpl; intros H; try discriminate; split; discriminate.
Qed.

Lemma may_precede_trans (a b c : row) :
  may_precede a b = true -> may_precede b c = true -> may_precede a c = true.
Proof.
  unfold may_precede. intros Hab Hbc.
  destruct (missing_pct c) eqn:Ec; try reflexivity;
    (destruct (number_leb_not_nan _ _ Hbc) as [_ Hb];
     destruct (missing_pct b) eqn:Eb; try congruence;
     now apply number_leb_trans with (missing_pct b); rewrite ?Eb).
Qed.

Lemma may_precede_total (a b : row) :
  may_precede a b = true \/ may_precede b a = true.
Proof.
  unfold may_precede.
  destruct (missing_pct b) as [q| | |] eqn:Eb; try (now left);
    destruct (missing_pct a) as [p| | |] eqn:Ea; try (now right); try (now left).
  destruct (@number_leb_total (Finite p) (Finite q)) as [H|H];
    try discriminate; [now right | now left].
Qed.

Section InsertionSort.

Variable before : row -> row -> bool.
Hypothesis before_true : forall r r', before r r' = true -> may_precede r r' = true.
Hypothesis before_false : forall r r', before r r' = false -> may_precede r' r = true.

Lemma insert_row_perm (r : row) (t : table) :
  Permutation (insert_row before r t) (r :: t).
Proof.
  induction t as [|r' t' IH]; simpl.
  - apply Permutation_refl.
  - destruct (before r r').
    + apply Permutation_refl.
    + apply perm_trans with (r' :: r :: t'); [now apply perm_skip | apply perm_swap].
Qed.

Lemma insert_row_sorted (r : row) (t : table) :
  StronglySorted (fun r1 r2 => may_precede r1 r2 = true) t ->
  StronglySorted (fun r1 r2 => may_precede r1 r2 = true) (insert_row before r t).
Proof.
  induction t as [|r' t' IH]; simpl; intros Hs.
  - constructor; constructor.
  - inversion Hs as [|? ? Hs' Hall]; subst.
    destruct (before r r') eqn:E.
    + constructor; [assumption|]. constructor.
      * now apply before_true.
      * apply Forall_forall. intros x Hx.
        apply may_precede_trans with r'; [now apply before_true|].
        now apply (proj1 (Forall_forall _ _) Hall).
    + constructor; [now apply IH|].
      apply Permutation_Forall with (r :: t').
      * apply Permutation_sym, insert_row_perm.
      * constructor; [now apply before_false | assumption].
Qed.

Lemma insertion_sorts : sorts (fold_right (insert_row before) []).
Proof.
  split; intros t; induction t as [|r t IH]; simpl.
  - apply Permutation_refl.
  - apply perm_trans with (r :: fold_right (insert_row before) [] t).
    + apply insert_row_perm.
    + now apply perm_skip.
  - constructor.
  - now apply insert_row_sorted.
Qed.

End InsertionSort.

Lemma sort_values_stable_sorts : sorts sort_values_stable.
Proof.
  apply insertion_sorts.
  - trivial.
  - intros r r' H. destruct (may_precede_total r r') as [H'|H']; congruence.
Qed.


Lemma count_na_app (u v : list scalar) : count_na (u ++ v) = count_na u + count_na v.
Proof. unfold count_na. now rewrite filter_app, length_app. Qed.

Lemma total_na_columns (df : frame) :
  total_na df = list_sum (map (fun c : column => count_na (snd c)) df).
Proof.
  unfold total_na, cells. induction df as [|c df IH]; simpl.
  - reflexivity.
  - now rewrite count_na_app, IH.
Qed.


Lemma pct_of_none_missing (total : nat) : 0 < total -> pct 0 total = Finite 0.
Proof.
  destruct total as [|n]; [lia|]. intros _. reflexivity.
Qed.

Lemma DataFrame_rows (total : nat) (df : frame) :
  DataFrame (columns df)
            (map (fun c : column => count_na (snd c)) df)
            (map (fun n => round2 (scale (true_divide n total) 100%Q))
                 (map (fun c : column => count_na (snd c)) df))
  = map (row_of total) df.
Proof.
  induction df as [|c df IH]; simpl; [reflexivity|]. now rewrite IH.
Qed.

Section MissingnessFacts.

Variable sort_values : table -> table.
Hypothesis sort_values_sorts : sorts sort_values.

Lemma missingness_rows (df : frame) :
  Permutation (make_missingness_table sort_values df) (map (row_of (len df)) df).
Proof.
  unfold make_missingness_table. cbv zeta. rewrite <- DataFrame_rows.
  apply (sorts_perm sort_values_sorts).
Qed.


Lemma missingness_all_zero (df : frame) :
  no_missing df -> 0 < len df ->
  Forall (fun r => missing_n r = 0 /\ missing_pct r = Finite 0)
         (make_missingness_table sort_values df).
Proof.
  intros Hno Hlen.
  apply Permutation_Forall with (map (row_of (len df)) df).
  - apply Permutation_sym, missingness_rows.
  - apply Forall_forall. intros r Hr. apply in_map_iff in Hr.
    destruct Hr as [c [<- Hc]]. unfold row_of; simpl.
    assert (E : count_na (snd c) = 0).
    { unfold no_missing in Hno. rewrite Forall_forall in Hno.
      specialize (Hno c Hc). unfold count_na.
      induction (snd c) as [|x v IH]; simpl; [reflexivity|].
      inversion Hno; subst. rewrite H1. now apply IH. }
    rewrite E. split; [reflexivity | now apply pct_of_none_missing].
Qed.

End MissingnessFacts.

(** ** The columns with a missing value *)

Lemma select_missing_ok (df : frame) :
  NoDup (columns df) ->
  forall l, incl l df ->
  select_missing df (map fst l) = inr (map fst (filter has_na l)).
Proof.
  intros Hnd. induction l as [|c l IH]; intros Hincl; simpl.
  - reflexivity.
  - unfold any_null. rewrite (getitem_unique df c Hnd); [|apply Hincl; now left].
    simpl. rewrite IH; [|intros x Hx; apply Hincl; now right].
    simpl. unfold has_na. now destruct (existsb isna (snd c)).
Qed.

Lemma missing_columns_ok (df : frame) :
  NoDup (columns df) -> missing_columns df = inr (map fst (filter has_na df)).
Proof.
  intros Hnd. unfold missing_columns, columns.
  apply select_missing_ok; [assumption | apply incl_refl].
Qed.

Lemma has_na_false (c : column) :
  has_na c = false <-> Forall (fun x => isna x = false) (snd c).
Proof.
  unfold has_na. split.
  - intros H. apply Forall_forall. intros x Hx.
    destruct (isna x) eqn:E; [|reflexivity].
    assert (existsb isna (snd c) = true) by (apply existsb_exists; now exists x).
    congruence.
  - intros H. destruct (existsb isna (snd c)) eqn:E; [|reflexivity].
    apply existsb_exists in E. destruct E as [x [Hx E]].
    rewrite Forall_forall in H. rewrite (H x Hx) in E. discriminate.
Qed.

Lemma no_missing_filter (df : frame) : no_missing df <-> filter has_na df = [].
Proof.
  unfold no_missing. induction df as [|c df IH]; simpl.
  - split; [reflexivity | constructor].
  - split.
    + intros H. inversion H as [|? ? Hc Hdf]; subst.
      apply has_na_false in Hc. rewrite Hc. now apply IH.
    + intros H. destruct (has_na c) eqn:E; [discriminate|].
      constructor; [now apply has_na_false | now apply IH].
Qed.


(** ** Runs of [start_imputation] *)

Section RunFacts.

Variable floatify : string -> option number.
Variable sort_values : table -> table.
Variable kernel : Type.
Variable mf_ImputationKernel : frame -> option Z -> N -> result kernel.
Variable mice_iteration : kernel -> result kernel.
Variable complete_data : kernel -> nat -> result frame.

Abbreviation run := (start_imputation floatify sort_values
                   mf_ImputationKernel mice_iteration complete_data).
Abbreviation engine := (impute mf_ImputationKernel mice_iteration complete_data).
Abbreviation reaches_engine := (reaches_engine floatify).

Lemma run_with_missing (w : world) (df : frame) (missing : list string) :
  reaches_engine w df missing ->
  run w =
    let t := make_missingness_table sort_values df in
    match engine df (entropy w) with
    | inr completed_df =>
        (messagebox showinfo_done
           (save_figures missing
              (save_workbook [("Missingness", TableSheet t);
                              ("Data_Original", FrameSheet df);
                              ("Data_Imputed", FrameSheet completed_df)] w)),
         Imputed t df completed_df)
    | inl e => (messagebox (showerror_failed e) w, Failed t df e)
    end.
Proof.
  intros [raw [Hd [Hs [Hm Hne]]]]. unfold start_imputation, num_cols_of in *.
  rewrite Hd, Hs, Hm. destruct missing as [|c cs]; [congruence|].
  reflexivity.
Qed.

Lemma run_imputed_inv (w : world) (t : table) (df out : frame) :
  snd (run w) = Imputed t df out ->
  (exists missing, reaches_engine w df missing) /\ engine df (entropy w) = inr out.
Proof.
  unfold start_imputation, reaches_engine, num_cols_of.
  destruct (data w) as [raw|] eqn:Hd; simpl; [|discriminate].
  destruct (sanitize floatify _ raw) as [e|df'] eqn:Hs; simpl; [discriminate|].
  destruct (missing_columns df') as [e|[|c cs]] eqn:Hm; simpl; try discriminate.
  destruct (impute _ _ _ df' (entropy w)) as [e|out'] eqn:He; simpl; [discriminate|].
  intros H. injection H as _ <- <-. split; [|assumption].
  exists (c :: cs), raw. repeat split; try assumption; try reflexivity. discriminate.
Qed.

Lemma completed_datasets_inv (w : world) (out : frame) :
  In out (completed_datasets (snd (run w))) ->
  exists t df, snd (run w) = Imputed t df out.
Proof.
  destruct (snd (run w)) as [|e|t df|t df c|t df e]; simpl; try contradiction.
  intros [->|[]]. now exists t, df.
Qed.


Lemma run_without_missing (w : world) (raw df : frame) :
  data w = Some raw ->
  sanitize floatify (num_cols_of w raw) raw = inr df ->
  missing_columns df = inr [] ->
  run w =
    let t := make_missingness_table sort_values df in
    (messagebox showinfo_no_missing
       (save_workbook [("Missingness", TableSheet t);
                       ("Data_Original", FrameSheet df)] w),
     NothingToImpute t df).
Proof.
  intros Hd Hs Hm. unfold start_imputation, num_cols_of in *.
  now rewrite Hd, Hs, Hm.
Qed.

(** The three calls of the [try] block, one after the other *)
Lemma engine_unfold (df : frame) (e : N) :
  engine df e =
  (k0 <- mf_ImputationKernel df (Some 42%Z) e ;;
   k1 <- mice_iteration k0 ;;
   k2 <- mice_iteration k1 ;;
   k3 <- mice_iteration k2 ;;
   complete_data k3 0).
Proof.
  unfold impute. destruct (mf_ImputationKernel df (Some 42%Z) e) as [x|k0]; simpl;
    [reflexivity|].
  destruct (mice_iteration k0) as [x|k1]; simpl; [reflexivity|].
  destruct (mice_iteration k1) as [x|k2]; simpl; [reflexivity|].
  destruct (mice_iteration k2) as [x|k3]; simpl; reflexivity.
Qed.

(** C8, as the code has it. On every frame with missing values the run
    builds one kernel with [random_state=42], applies to it exactly three
    iterations and extracts dataset 0: when the five calls return, the run
    hands out exactly one completed dataset, the one extracted after the
    third iteration; when one of them raises, it hands out none. *)
Theorem three_iterations_one_dataset (w : world) (df : frame) (missing : list string) :
  reaches_engine w df missing ->
  completed_datasets (snd (run w)) =
    match (k0 <- mf_ImputationKernel df (Some 42%Z) (entropy w) ;;
           k1 <- mice_iteration k0 ;;
           k2 <- mice_iteration k1 ;;
           k3 <- mice_iteration k2 ;;
           complete_data k3 0) with
    | inr completed_df => [completed_df]
    | inl _ => []
    end.
Proof.
  intros H. rewrite (run_with_missing H), <- engine_unfold.
  cbv zeta. now destruct (engine df (entropy w)).
Qed.

(** C10. Whenever the run reaches the [try] block and building the
    kernel, the iterations or the extraction of the completed data raise
    [e], the call ends in the [except] branch and returns: the exception
    does not leave [start_imputation], an error box shows it, no file (no
    workbook, no picture) is written, and the loaded data is unchanged. *)
Theorem engine_failure_is_caught
  (w : world) (df : frame) (missing : list string) (e : exn) :
  reaches_engine w df missing ->
  engine_raises mf_ImputationKernel mice_iteration complete_data df (entropy w) e ->
  snd (run w) = Failed (make_missingness_table sort_values df) df e
  /\ dialogs (fst (run w)) = (dialogs w ++ [showerror_failed e])%list
  /\ files (fst (run w)) = files w
  /\ data (fst (run w)) = data w.
Proof.
  intros H Hr. rewrite (run_with_missing H). cbv zeta.
  assert (He : engine df (entropy w) = inl e).
  { unfold impute. destruct Hr as [Hk|[[k0 [Hk Hm]]|[k0 [k3 [Hk [Hm Hc]]]]]].
    - now rewrite Hk.
    - rewrite Hk; cbn [bind]. now rewrite Hm.
    - rewrite Hk; cbn [bind]. rewrite Hm; cbn [bind]. exact Hc. }
  rewrite He. simpl. auto.
Qed.

Lemma outcome_depends_on_data (w1 w2 : world) :
  seeded mf_ImputationKernel ->
  data w1 = data w2 -> curselection w1 = curselection w2 ->
  snd (run w1) = snd (run w2).
Proof.
  intros Hseed Hd Hc. unfold start_imputation. rewrite Hd, Hc.
  destruct (data w2) as [raw|]; [|reflexivity].
  destruct (sanitize floatify _ raw) as [e|df]; [reflexivity|].
  destruct (missing_columns df) as [e|[|c cs]]; try reflexivity.
  assert (E : engine df (entropy w1) = engine df (entropy w2)).
  { unfold impute. now rewrite (Hseed df 42%Z (entropy w1) (entropy w2)). }
  rewrite E. now destruct (engine df (entropy w2)).
Qed.

(** C6. Two runs on the same loaded data with the same columns selected
    as continuous hand out the same completed datasets, whatever else
    differs between them (output paths, files already written, and what an
    unseeded generator would have drawn): the kernel is built with the
    fixed [random_state=42], and a kernel built with a [random_state]
    draws from nothing else. *)
Theorem same_inputs_same_completed_datasets (w1 w2 : world) :
  seeded mf_ImputationKernel ->
  data w1 = data w2 -> curselection w1 = curselection w2 ->
  completed_datasets (snd (run w1)) = completed_datasets (snd (run w2)).
Proof.
  intros Hseed Hd Hc. now rewrite (outcome_depends_on_data w1 w2 Hseed Hd Hc).
Qed.

Section KernelContract.

Variable working_data : kernel -> frame.
Hypothesis contract :
  imputes_missing_cells mf_ImputationKernel mice_iteration complete_data working_data.

Lemma mice_keeps_working_data (n : nat) :
  forall k k', mice mice_iteration k n = inr k' -> working_data k' = working_data k.
Proof.
  induction n as [|n IH]; intros k k' H; simpl in H.
  - now injection H as <-.
  - destruct (mice_iteration k) as [e|k1] eqn:E; simpl in H; [discriminate|].
    rewrite (IH _ _ H). apply (mice_keeps_data contract _ E).
Qed.

Lemma engine_completes (df out : frame) (e : N) :
  engine df e = inr out -> completes df out.
Proof.
  unfold impute. intros H.
  destruct (mf_ImputationKernel df (Some 42%Z) e) as [x|k0] eqn:Hk; cbn [bind] in H;
    [discriminate|].
  destruct (mice mice_iteration k0 3) as [x|k3] eqn:Hm; cbn [bind] in H;
    [discriminate|].
  rewrite <- (kernel_copies_data contract _ _ _ Hk).
  rewrite <- (mice_keeps_working_data _ _ Hm).
  apply (complete_data_imputes contract _ _ H).
Qed.

Lemma imputed_observed (v : list scalar) :
  forall v', Forall2 imputed v v' -> Forall (fun x => isna x = false) v'.
Proof.
  induction 1 as [|x y v v' Hxy _ IH]; constructor; [|assumption].
  unfold imputed in Hxy. destruct (isna x) eqn:E; [assumption | congruence].
Qed.

Lemma imputed_same (v : list scalar) :
  forall v', Forall2 imputed v v' -> Forall (fun x => isna x = false) v -> v' = v.
Proof.
  induction 1 as [|x y v v' Hxy _ IH]; intros Hv; [reflexivity|].
  inversion Hv as [|? ? Hx Hv']; subst. unfold imputed in Hxy. rewrite Hx in Hxy.
  rewrite Hxy. f_equal. now apply IH.
Qed.

Lemma completes_no_missing (df out : frame) : completes df out -> no_missing out.
Proof.
  unfold completes, no_missing.
  induction 1 as [|c c' df out [_ Hc] _ IH]; constructor; [|assumption].
  now apply imputed_observed with (snd c).
Qed.

Lemma completes_same_column (df out : frame) :
  completes df out ->
  forall i c, nth_error df i = Some c ->
  Forall (fun x => isna x = false) (snd c) -> nth_error out i = Some c.
Proof.
  unfold completes.
  induction 1 as [|d d' df out [Hn Hv] _ IH]; intros i c Hi Hc.
  - destruct i; discriminate.
  - destruct i as [|i]; simpl in *.
    + injection Hi as ->. f_equal. destruct c as [n v], d' as [n' v']; simpl in *.
      now rewrite Hn, (imputed_same Hv Hc).
    + now apply IH.
Qed.

(** C1. Every completed dataset a run hands out (there is one only when
    the cleaned frame had a missing cell and the library calls returned)
    has no missing cell in any column, given that [complete_data] returns
    the kernel's data with its missing cells imputed. *)
Theorem completed_dataset_has_no_missing_cell (w : world) (out : frame) :
  In out (completed_datasets (snd (run w))) -> no_missing out.
Proof.
  intros Hin. destruct (completed_datasets_inv _ _ Hin) as [t [df Ho]].
  destruct (run_imputed_inv _ Ho) as [_ He].
  apply completes_no_missing with df. now apply engine_completes with (entropy w).
Qed.

(** C7. In a run that reaches the engine with the cleaned frame [df]
    and hands out a completed dataset, every column of [df] without a
    missing cell sits in the completed dataset at the same place, with the
    same label and exactly the same values, given that [complete_data]
    returns the kernel's data with its missing cells imputed. *)
Theorem complete_columns_are_untouched
  (w : world) (df out : frame) (missing : list string) (i : nat) (c : column) :
  reaches_engine w df missing ->
  In out (completed_datasets (snd (run w))) ->
  nth_error df i = Some c ->
  Forall (fun x => isna x = false) (snd c) ->
  nth_error out i = Some c.
Proof.
  intros Hr Hin Hi Hc. rewrite (run_with_missing Hr) in Hin. cbv zeta in Hin.
  destruct (engine df (entropy w)) as [e|out'] eqn:He; simpl in Hin; [contradiction|].
  destruct Hin as [<-|[]].
  apply completes_same_column with df; try assumption.
  now apply engine_completes with (entropy w).
Qed.

End KernelContract.


(** C4, as the code has it. When the loaded data has at least one row
    and distinct labels and its cleaned form has no missing cell, the run
    calls no library routine of the engine and hands out no completed
    dataset; it computes the missingness table, in which every count is 0
    and every percentage is 0, writes the table and the cleaned data to
    the workbook when a path was chosen, and ends with an information box,
    not an error. *)
Theorem nothing_to_impute (w : world) (raw df : frame) :
  sorts sort_values ->
  data w = Some raw ->
  sanitize floatify (num_cols_of w raw) raw = inr df ->
  NoDup (columns df) ->
  no_missing df ->
  0 < len df ->
  let t := make_missingness_table sort_values df in
  run w = (messagebox showinfo_no_missing
             (save_workbook [("Missingness", TableSheet t);
                             ("Data_Original", FrameSheet df)] w),
           NothingToImpute t df)
  /\ Forall (fun r => missing_n r = 0 /\ missing_pct r = Finite 0) t
  /\ completed_datasets (snd (run w)) = [].
Proof.
  intros Hsort Hd Hs Hnd Hno Hlen t.
  assert (Hm : missing_columns df = inr []).
  { rewrite missing_columns_ok by assumption.
    now rewrite (proj1 (no_missing_filter df) Hno). }
  rewrite (run_without_missing _ Hd Hs Hm). fold t. repeat split.
  now apply missingness_all_zero.
Qed.





End RunFacts.

(** ** The donor kernel keeps the promises of the library *)

Lemma donor_observed (s : N) (v : list scalar) :
  observed v <> [] -> isna (donor s v) = false.
Proof.
  intros Hne. unfold donor.
  assert (Hin : In (nth (N.to_nat s mod List.length (observed v)) (observed v)
                        (Num (Finite 0))) (observed v)).
  { apply nth_In. apply Nat.mod_upper_bound.
    destruct (observed v); [congruence | discriminate]. }
  unfold observed in Hin at 3. apply filter_In in Hin.
  now apply negb_true_iff.
Qed.

Lemma fill_imputes (d : scalar) (v : list scalar) :
  isna d = false ->
  Forall2 imputed v (map (fun x => if isna x then d else x) v).
Proof.
  intros Hd. induction v as [|x v IH]; simpl; constructor; [|assumption].
  unfold imputed. now destruct (isna x).
Qed.

Lemma fill_completes (s : N) (df : frame) :
  existsb unusable df = false -> completes df (map (fill s) df).
Proof.
  unfold completes. induction df as [|c df IH]; simpl; intros H.
  - constructor.
  - apply orb_false_iff in H. destruct H as [Hc Hdf].
    constructor; [|now apply IH]. split; [reflexivity|].
    unfold fill; simpl. apply fill_imputes. apply donor_observed.
    unfold unusable in Hc. apply orb_false_iff in Hc. destruct Hc as [_ Hc].
    destruct (observed (snd c)); [discriminate | discriminate].
Qed.

Lemma donor_contract :
  imputes_missing_cells donor_ImputationKernel donor_mice_iteration
                        donor_complete_data working.
Proof.
  split.
  - intros df rs e k. unfold donor_ImputationKernel.
    destruct (existsb unusable df); [discriminate|].
    intros H. injection H as <-. reflexivity.
  - intros k k' H. injection H as <-. reflexivity.
  - intros k [|i] out; simpl; [|discriminate].
    destruct (existsb unusable (working k)) eqn:E; [discriminate|].
    intros H. injection H as <-. now apply fill_completes.
Qed.

Lemma donor_seeded : seeded donor_ImputationKernel.
Proof. intros df s e1 e2. reflexivity. Qed.

(** ** The properties on the example data *)

Ltac distinct := repeat constructor; simpl; intuition discriminate.

Abbreviation donor_run :=
  (start_imputation floatify_literals sort_values_stable
     donor_ImputationKernel donor_mice_iteration donor_complete_data).

(** With repeated labels the run is aborted by pandas, and the exception
    leaves [start_imputation]. *)
Example repeated_labels_escape :
  snd (donor_run (World (Some [("1", [whole 1]); ("1", [whole 2])]) [] None None 0%N [] []))
  = Raised ValueError.
Proof. reflexivity. Qed.

(** C1 on the numeric sheet: the one completed dataset has no NaN. *)
Lemma completed_dataset_has_no_missing_cell_witness :
  In [("age", [whole 23; whole 23; whole 41]); ("score", [whole 1; whole 2; whole 3])]
     (completed_datasets (snd (donor_run (numeric_world 7 None None))))
  /\ no_missing [("age", [whole 23; whole 23; whole 41]); ("score", [whole 1; whole 2; whole 3])].
Proof.
  assert (H : In [("age", [whole 23; whole 23; whole 41]); ("score", [whole 1; whole 2; whole 3])]
                 (completed_datasets (snd (donor_run (numeric_world 7 None None))))).
  { left. reflexivity. }
  split; [exact H|].
  exact (completed_dataset_has_no_missing_cell
           floatify_literals sort_values_stable donor_contract
           (numeric_world 7 None None) _ H).
Defined.





(** C4, as the code has it, on the sheet without an empty cell. *)
Lemma nothing_to_impute_witness :
  let df := [("age", [whole 23; whole 41]); ("score", [whole 1; whole 2])] in
  sorts sort_values_stable
  /\ data full_world = Some full_raw
  /\ sanitize floatify_literals (num_cols_of full_world full_raw) full_raw = inr df
  /\ NoDup (columns df)
  /\ no_missing df
  /\ 0 < len df
  /\ let t := make_missingness_table sort_values_stable df in
     donor_run full_world
     = (messagebox showinfo_no_missing
          (save_workbook [("Missingness", TableSheet t);
                          ("Data_Original", FrameSheet df)] full_world),
        NothingToImpute t df)
     /\ Forall (fun r => missing_n r = 0 /\ missing_pct r = Finite 0) t
     /\ completed_datasets (snd (donor_run full_world)) = [].
Proof.
  intros df.
  assert (H1 : data full_world = Some full_raw) by reflexivity.
  assert (H2 : sanitize floatify_literals (num_cols_of full_world full_raw) full_raw
               = inr df) by reflexivity.
  assert (H3 : NoDup (columns df)) by distinct.
  assert (H4 : no_missing df) by (repeat constructor).
  assert (H5 : 0 < len df) by (simpl; lia).
  split; [exact sort_values_stable_sorts|].
  split; [exact H1|]. split; [exact H2|]. split; [exact H3|].
  split; [exact H4|]. split; [exact H5|].
  exact (nothing_to_impute floatify_literals
           donor_ImputationKernel donor_mice_iteration donor_complete_data
           full_world sort_values_stable_sorts H1 H2 H3 H4 H5).
Defined.

(** C4 as stated fails: a sheet with a header and no rows has no missing
    cell, yet every percentage of its missingness table is NaN (0/0), not
    0. *)
Lemma no_rows_percentages_are_nan :
  sanitize floatify_literals (num_cols_of header_only_world header_only) header_only
  = inr header_only
  /\ no_missing header_only
  /\ snd (donor_run header_only_world)
     = NothingToImpute [Row "age" 0 NaN; Row "grade" 0 NaN] header_only
  /\ ~ Forall (fun r => missing_pct r = Finite 0) [Row "age" 0 NaN; Row "grade" 0 NaN].
Proof.
  split; [reflexivity|]. split; [repeat constructor|]. split; [reflexivity|].
  intros H. inversion H as [|? ? H1 _]. discriminate.
Qed.


(** C6 on the numeric sheet: two runs that differ in the entropy and in
    the output paths. *)
Lemma same_inputs_same_completed_datasets_witness :
  seeded donor_ImputationKernel
  /\ data (numeric_world 7 None None) = data (numeric_world 99 (Some "out.xlsx") (Some "figures"))
  /\ curselection (numeric_world 7 None None)
     = curselection (numeric_world 99 (Some "out.xlsx") (Some "figures"))
  /\ completed_datasets (snd (donor_run (numeric_world 7 None None)))
     = completed_datasets
         (snd (donor_run (numeric_world 99 (Some "out.xlsx") (Some "figures")))).
Proof.
  split; [exact donor_seeded|]. split; [reflexivity|]. split; [reflexivity|].
  exact (same_inputs_same_completed_datasets
           floatify_literals sort_values_stable
           donor_mice_iteration donor_complete_data
           (numeric_world 7 None None)
           (numeric_world 99 (Some "out.xlsx") (Some "figures"))
           donor_seeded eq_refl eq_refl).
Defined.

(** C7 on the numeric sheet: the complete column [score] is returned as
    it was. *)
Lemma complete_columns_are_untouched_witness :
  let w := numeric_world 7 None None in
  let df := [("age", [whole 23; nan; whole 41]); ("score", [whole 1; whole 2; whole 3])] in
  let out := [("age", [whole 23; whole 23; whole 41]);
              ("score", [whole 1; whole 2; whole 3])] in
  reaches_engine floatify_literals w df ["age"]
  /\ In out (completed_datasets (snd (donor_run w)))
  /\ nth_error df 1 = Some ("score", [whole 1; whole 2; whole 3])
  /\ Forall (fun x => isna x = false) [whole 1; whole 2; whole 3]
  /\ nth_error out 1 = Some ("score", [whole 1; whole 2; whole 3]).
Proof.
  intros w df out.
  assert (H0 : reaches_engine floatify_literals w df ["age"]).
  { exists numeric_raw. repeat split; try reflexivity. discriminate. }
  assert (H1 : In out (completed_datasets (snd (donor_run w)))) by (left; reflexivity).
  assert (H2 : nth_error df 1 = Some ("score", [whole 1; whole 2; whole 3]))
    by reflexivity.
  assert (H3 : Forall (fun x => isna x = false)
                      (snd ("score", [whole 1; whole 2; whole 3])))
    by (repeat constructor).
  split; [exact H0|]. split; [exact H1|]. split; [exact H2|]. split; [exact H3|].
  exact (@complete_columns_are_untouched
           floatify_literals sort_values_stable _ _ _ _ _ donor_contract
           w df out ["age"] 1 _ H0 H1 H2 H3).
Defined.

(** C8, as the code has it, on the numeric sheet. *)
Lemma three_iterations_one_dataset_witness :
  let df := [("age", [whole 23; nan; whole 41]); ("score", [whole 1; whole 2; whole 3])] in
  let w := numeric_world 7 None None in
  reaches_engine floatify_literals w df ["age"]
  /\ completed_datasets (snd (donor_run w))
     = match (k0 <- donor_ImputationKernel df (Some 42%Z) (entropy w) ;;
              k1 <- donor_mice_iteration k0 ;;
              k2 <- donor_mice_iteration k1 ;;
              k3 <- donor_mice_iteration k2 ;;
              donor_complete_data k3 0) with
       | inr completed_df => [completed_df]
       | inl _ => []
       end.
Proof.
  intros df w.
  assert (H : reaches_engine floatify_literals w df ["age"]).
  { exists numeric_raw. repeat split; try reflexivity. discriminate. }
  split; [exact H|].
  exact (three_iterations_one_dataset sort_values_stable
           donor_ImputationKernel donor_mice_iteration donor_complete_data H).
Defined.

(** C8 as stated fails: on the sheet with a text column the cleaned frame
    has missing values, the kernel cannot be built, and the run hands out
    no completed dataset. *)
Lemma failed_run_has_no_completed_dataset :
  missing_columns [("age", [whole 23; nan; whole 41]); ("grade", [Str "A"; Str "B"; Str "A"])]
  = inr ["age"]
  /\ snd (donor_run text_world)
     = Failed [Row "age" 1 (Finite (3333 # 100)); Row "grade" 0 (Finite 0)]
              [("age", [whole 23; nan; whole 41]); ("grade", [Str "A"; Str "B"; Str "A"])]
              (Exception "ValueError" "cannot impute this frame")
  /\ completed_datasets (snd (donor_run text_world)) = []
  /\ List.length (completed_datasets (snd (donor_run text_world))) <> 1.
Proof.
  repeat split. discriminate.
Qed.



(** C10 on the sheet with a text column: the kernel cannot be built. *)
Lemma engine_failure_is_caught_witness :
  let df := [("age", [whole 23; nan; whole 41]); ("grade", [Str "A"; Str "B"; Str "A"])] in
  let e := Exception "ValueError" "cannot impute this frame" in
  reaches_engine floatify_literals text_world df ["age"]
  /\ engine_raises donor_ImputationKernel donor_mice_iteration donor_complete_data
                   df (entropy text_world) e
  /\ snd (donor_run text_world)
     = Failed (make_missingness_table sort_values_stable df) df e
  /\ dialogs (fst (donor_run text_world))
     = (dialogs text_world ++ [showerror_failed e])%list
  /\ files (fst (donor_run text_world)) = files text_world
  /\ data (fst (donor_run text_world)) = data text_world.
Proof.
  intros df e.
  assert (H1 : reaches_engine floatify_literals text_world df ["age"]).
  { exists text_raw. repeat split; try reflexivity. discriminate. }
  assert (H2 : engine_raises donor_ImputationKernel donor_mice_iteration
                 donor_complete_data df (entropy text_world) e).
  { left. reflexivity. }
  split; [exact H1|]. split; [exact H2|].
  exact (engine_failure_is_caught sort_values_stable H1 H2).
Defined.

(** * More of the script *)

(** ** The cleaning: when it returns, and what it returns *)

Lemma getitem_count (df : frame) (col : string) :
  List.length (getitem df col) = count_occ string_dec (columns df) col.
Proof.
  unfold getitem, columns, label_is. induction df as [|c df IH]; simpl; [reflexivity|].
  destruct (string_dec (fst c) col) as [E|E].
  - apply String.eqb_eq in E. rewrite E. simpl. now rewrite IH.
  - apply String.eqb_neq in E. now rewrite E.
Qed.

Section CleaningFacts.

Variable floatify : string -> option number.

Lemma setitem_to_numeric_cases (col : string) (df : frame) :
  match count_occ string_dec (columns df) col with
  | 0 => setitem_to_numeric floatify col df = inl (KeyError col)
  | 1 => setitem_to_numeric floatify col df = inr (coerced floatify [col] df)
  | S (S _) => setitem_to_numeric floatify col df = inl TypeError
  end.
Proof.
  rewrite <- getitem_count. unfold setitem_to_numeric.
  destruct (getitem df col) as [|c [|c' l]] eqn:E; simpl; try reflexivity.
  unfold ret, coerced. apply f_equal. apply map_ext. intros d.
  unfold mem; simpl. unfold label_is. rewrite orb_false_r.
  destruct (String.eqb (fst d) col); [reflexivity|].
  destruct d as [n v]; simpl. f_equal. symmetry. apply map_id.
Qed.

Lemma coerce_columns_outcome (num_cols : list string) :
  forall df,
  (Forall (fun col => count_occ string_dec (columns df) col = 1) num_cols
   /\ coerce_columns floatify num_cols df = inr (coerced floatify num_cols df))
  \/ (exists col, In col num_cols
        /\ ((count_occ string_dec (columns df) col = 0
             /\ coerce_columns floatify num_cols df = inl (KeyError col))
            \/ (2 <= count_occ string_dec (columns df) col
                /\ coerce_columns floatify num_cols df = inl TypeError))).
Proof.
  induction num_cols as [|col rest IH]; intros df.
  - left. split; [constructor|]. simpl. unfold ret, coerced. apply f_equal.
    rewrite <- (map_id df) at 1. apply map_ext. intros [n v]; simpl.
    f_equal. symmetry. apply map_id.
  - pose proof (setitem_to_numeric_cases col df) as Hc. simpl.
    destruct (count_occ string_dec (columns df) col) as [|[|k]] eqn:E.
    + right. exists col. split; [now left|]. left. split; [exact E|].
      now rewrite Hc.
    + rewrite Hc. simpl.
      destruct (IH (coerced floatify [col] df)) as [[Hall Hok]|[c [Hin Hbad]]];
        rewrite columns_coerced in *.
      * left. split; [now constructor|]. now rewrite Hok, coerced_cons.
      * right. exists c. split; [now right | exact Hbad].
    + right. exists col. split; [now left|]. right. split; [rewrite E; lia|].
      now rewrite Hc.
Qed.

(** X1. The cleaning returns a frame exactly when every column selected
    as continuous carries a label that occurs once in the data; when it
    raises, some selected label is absent from the data (KeyError of that
    label) or occurs twice or more (TypeError). What the cells hold never
    matters. *)
Theorem sanitize_returns_iff_labels_occur_once (num_cols : list string) (data : frame) :
  ((exists df, sanitize floatify num_cols data = inr df)
   <-> Forall (fun col => count_occ string_dec (columns data) col = 1) num_cols)
  /\ (forall e, sanitize floatify num_cols data = inl e ->
        exists col, In col num_cols
          /\ ((count_occ string_dec (columns data) col = 0 /\ e = KeyError col)
              \/ (2 <= count_occ string_dec (columns data) col /\ e = TypeError))).
Proof.
  unfold sanitize.
  destruct (coerce_columns_outcome num_cols
              (replace blank_to_nan (replace inf_to_nan data)))
    as [[Hall Hok]|[col [Hin Hbad]]]; rewrite !columns_replace in *.
  - split.
    + split; [intros _; exact Hall | intros _; eexists; exact Hok].
    + intros e He. rewrite Hok in He. discriminate.
  - split.
    + split.
      * intros [df Hdf]. destruct Hbad as [[_ H]|[_ H]]; rewrite H in Hdf; discriminate.
      * intros Hall. rewrite Forall_forall in Hall. specialize (Hall col Hin).
        destruct Hbad as [[H _]|[H _]]; lia.
    + intros e He. exists col. split; [assumption|].
      destruct Hbad as [[H0 H]|[H2 H]]; rewrite H in He; injection He as <-; auto.
Qed.

(** X2. The cleaning keeps the shape of the data: the same labels in the
    same order, and in every column as many cells as before. *)
Theorem sanitize_keeps_shape (num_cols : list string) (data df : frame) :
  sanitize floatify num_cols data = inr df ->
  columns df = columns data
  /\ map (fun c : column => List.length (snd c)) df
     = map (fun c : column => List.length (snd c)) data
  /\ len df = len data.
Proof.
  intros H. apply sanitize_inr in H. subst df. split; [apply columns_sanitized|].
  split.
  - unfold sanitized. rewrite map_map. apply map_ext. intros c; simpl.
    apply length_map.
  - destruct data as [|[n v] rest]; simpl; [reflexivity | apply length_map].
Qed.

Lemma sanitize_cell_kind (b : bool) (x : scalar) :
  match sanitize_cell floatify b x with
  | Str s => blank s = false /\ b = false
  | Num PosInf | Num NegInf => b = true
  | Num _ => True
  end.
Proof.
  unfold sanitize_cell. destruct x as [[q| | |]|s]; simpl.
  - now destruct b.
  - now destruct b.
  - now destruct b.
  - now destruct b.
  - destruct (blank s) eqn:Hb; simpl.
    + now destruct b.
    + destruct b; simpl.
      * destruct (floatify s) as [[q| | |]|]; simpl; auto.
      * auto.
Qed.

(** X3. In the frame the cleaning returns no cell is a text of whitespace
    only, no cell of a continuous column is a text at all, and no cell of
    any other column is an infinity. *)
Theorem sanitize_leaves_no_blank_no_text_no_infinity
  (num_cols : list string) (data df : frame) (c : column) (x : scalar) :
  sanitize floatify num_cols data = inr df ->
  In c df -> In x (snd c) ->
  (forall s, x = Str s -> blank s = false /\ mem (fst c) num_cols = false)
  /\ (x = Num PosInf \/ x = Num NegInf -> mem (fst c) num_cols = true).
Proof.
  intros H Hc Hx. apply sanitize_inr in H. subst df.
  unfold sanitized in Hc. apply in_map_iff in Hc. destruct Hc as [d [<- Hd]].
  simpl in *. apply in_map_iff in Hx. destruct Hx as [y [<- Hy]].
  pose proof (sanitize_cell_kind (mem (fst d) num_cols) y) as Hk.
  destruct (sanitize_cell floatify (mem (fst d) num_cols) y) as [[q| | |]|s].
  - split; [discriminate | intros [?|?]; discriminate].
  - split; [discriminate | intros _; exact Hk].
  - split; [discriminate | intros _; exact Hk].
  - split; [discriminate | intros [?|?]; discriminate].
  - split; [intros s' E; injection E as <-; exact Hk | intros [?|?]; discriminate].
Qed.

(** A cell and what the cleaning makes of it *)
Lemma sanitize_cell_keeps (b : bool) (x : scalar) :
  (isna x = true -> isna (sanitize_cell floatify b x) = true)
  /\ (forall q, x = Num (Finite q) -> sanitize_cell floatify b x = x).
Proof.
  unfold sanitize_cell. split.
  - destruct x as [[q| | |]|s]; simpl; try discriminate. now destruct b.
  - intros q ->. simpl. now destruct b.
Qed.

Lemma count_na_map (f : scalar -> scalar) (v : list scalar) :
  (forall x, isna x = true -> isna (f x) = true) ->
  count_na v <= count_na (map f v).
Proof.
  intros Hf. unfold count_na. induction v as [|x v IH]; simpl; [lia|].
  destruct (isna x) eqn:E.
  - rewrite (Hf x E). simpl. lia.
  - destruct (isna (f x)); simpl; lia.
Qed.

(** X4. The cleaning only ever adds missing cells: cell by cell, a
    missing cell stays missing and a finite number stays the number it
    was, so no column and no frame has fewer missing cells after the
    cleaning than before. *)
Theorem sanitize_only_adds_missing (num_cols : list string) (data df : frame) :
  sanitize floatify num_cols data = inr df ->
  Forall2 (fun c c' : column =>
             Forall2 (fun x x' => (isna x = true -> isna x' = true)
                                  /\ (forall q, x = Num (Finite q) -> x' = x))
                     (snd c) (snd c')
             /\ count_na (snd c) <= count_na (snd c'))
          data df
  /\ total_na data <= total_na df.
Proof.
  intros H. apply sanitize_inr in H. subst df. split.
  - unfold sanitized. induction data as [|c rest IH]; simpl; constructor; [|exact IH].
    simpl. split.
    + induction (snd c) as [|x v IHv]; simpl; constructor; [|exact IHv].
      apply sanitize_cell_keeps.
    + apply count_na_map. intros x. apply sanitize_cell_keeps.
  - rewrite !total_na_columns. unfold sanitized. rewrite map_map.
    induction data as [|c rest IH]; simpl; [lia|].
    pose proof (count_na_map (sanitize_cell floatify (mem (fst c) num_cols)) (snd c)
                  (fun x => proj1 (sanitize_cell_keeps _ x))).
    simpl in IH. lia.
Qed.

Lemma mem_ext (l1 l2 : list string) :
  (forall x, In x l1 <-> In x l2) -> forall x, mem x l1 = mem x l2.
Proof.
  intros H x. destruct (mem x l1) eqn:E1, (mem x l2) eqn:E2; try reflexivity.
  - apply mem_true in E1. apply H in E1. apply mem_true in E1. congruence.
  - apply mem_true in E2. apply H in E2. apply mem_true in E2. congruence.
Qed.

(** X5. The cleaning depends on which columns are selected, not on the
    order in which they are listed nor on how often: two lists with the
    same members give the same frame. *)
Theorem sanitize_ignores_order_of_selection
  (l1 l2 : list string) (data df : frame) :
  sanitize floatify l1 data = inr df ->
  (forall x, In x l1 <-> In x l2) ->
  sanitize floatify l2 data = inr df.
Proof.
  intros H1 Hmem.
  assert (Hall : Forall (fun col => count_occ string_dec (columns data) col = 1) l2).
  { apply Forall_forall. intros x Hx. apply Hmem in Hx.
    unfold sanitize in H1.
    destruct (coerce_columns_outcome l1 (replace blank_to_nan (replace inf_to_nan data)))
      as [[Ha _]|[col [_ [[_ Hb]|[_ Hb]]]]]; rewrite ?columns_replace in *.
    - rewrite Forall_forall in Ha. now apply Ha.
    - rewrite Hb in H1. discriminate.
    - rewrite Hb in H1. discriminate. }
  apply sanitize_inr in H1. subst df. unfold sanitize.
  destruct (coerce_columns_outcome l2 (replace blank_to_nan (replace inf_to_nan data)))
    as [[_ Hok]|[col [Hin Hbad]]]; rewrite ?columns_replace in *.
  - rewrite Hok, coerced_replace. apply f_equal. unfold sanitized.
    apply map_ext. intros c. now rewrite (@mem_ext l1 l2 Hmem).
  - rewrite Forall_forall in Hall. specialize (Hall col Hin).
    destruct Hbad as [[H _]|[H _]]; lia.
Qed.

End CleaningFacts.

(** ** The columns with a missing value: when the list is built *)

Lemma any_null_cases (df : frame) (col : string) :
  match count_occ string_dec (columns df) col with
  | 0 => any_null df col = inl (KeyError col)
  | 1 => exists b, any_null df col = inr b
  | S (S _) => any_null df col = inl ValueError
  end.
Proof.
  rewrite <- getitem_count. unfold any_null.
  destruct (getitem df col) as [|c [|c' l]]; simpl; try reflexivity.
  now eexists.
Qed.

Lemma select_missing_outcome (df : frame) (l : list string) :
  incl l (columns df) ->
  (Forall (fun col => count_occ string_dec (columns df) col = 1) l
   /\ exists r, select_missing df l = inr r)
  \/ select_missing df l = inl ValueError.
Proof.
  induction l as [|col rest IH]; intros Hincl.
  - left. split; [constructor | now eexists].
  - assert (Hin : In col (columns df)) by (apply Hincl; now left).
    apply (count_occ_In string_dec) in Hin.
    pose proof (any_null_cases df col) as Hc. simpl.
    destruct (count_occ string_dec (columns df) col) as [|[|k]] eqn:E; [lia| |].
    + destruct Hc as [b Hb]. rewrite Hb. simpl.
      destruct IH as [[Hall [r Hr]]|Hbad].
      * intros x Hx. apply Hincl. now right.
      * left. split; [now constructor|]. rewrite Hr. simpl. now eexists.
      * right. now rewrite Hbad.
    + right. now rewrite Hc.
Qed.

Lemma occur_once_NoDup (l : list string) :
  Forall (fun x => count_occ string_dec l x = 1) l -> NoDup l.
Proof.
  intros H. apply (NoDup_count_occ string_dec). intros x.
  destruct (in_dec string_dec x l) as [Hin|Hout].
  - rewrite Forall_forall in H. rewrite (H x Hin). lia.
  - apply (count_occ_not_In string_dec) in Hout. lia.
Qed.

Lemma missing_columns_repeated (df : frame) :
  ~ NoDup (columns df) -> missing_columns df = inl ValueError.
Proof.
  intros Hdup. unfold missing_columns.
  destruct (select_missing_outcome df (l := columns df) (incl_refl _))
    as [[Hall _]|Hbad]; [|assumption].
  exfalso. apply Hdup. now apply occur_once_NoDup.
Qed.

Lemma missing_columns_inr (df : frame) (missing : list string) :
  missing_columns df = inr missing ->
  NoDup (columns df) /\ missing = map fst (filter has_na df).
Proof.
  intros H. destruct (NoDup_dec string_dec (columns df)) as [Hnd|Hdup].
  - split; [assumption|]. rewrite missing_columns_ok in H by assumption.
    now injection H as <-.
  - rewrite missing_columns_repeated in H by assumption. discriminate.
Qed.

(** X6. Listing the columns with a missing value raises exactly when a
    label occurs twice in the frame, and what it raises then is the
    ValueError of an ambiguous truth value; with distinct labels it
    returns the labels of the columns that hold a NaN, in column order. *)
Theorem missing_columns_raises_iff_label_repeats (df : frame) :
  (NoDup (columns df) -> missing_columns df = inr (map fst (filter has_na df)))
  /\ (~ NoDup (columns df) -> missing_columns df = inl ValueError).
Proof.
  split; [apply missing_columns_ok | apply missing_columns_repeated].
Qed.

(** ** The percentages of the missingness table *)

Lemma rint_comp (x y : Q) : (x == y)%Q -> rint x = rint y.
Proof.
  intros H. unfold rint. rewrite (Qfloor_comp x y H).
  assert (E : ((2 * (x - inject_Z (Qfloor y)) ?= 1)
               = (2 * (y - inject_Z (Qfloor y)) ?= 1))%Q).
  { apply Qcompare_comp; [now rewrite H | reflexivity]. }
  now rewrite E.
Qed.

Lemma rint_inject_Z (z : Z) : rint (inject_Z z) = z.
Proof.
  unfold rint. rewrite Qfloor_Z.
  assert (E : ((2 * (inject_Z z - inject_Z z) ?= 1) = Lt)%Q).
  { apply Qlt_alt. setoid_replace (inject_Z z - inject_Z z)%Q with 0%Q by ring.
    reflexivity. }
  now rewrite E.
Qed.

Lemma rint_range (x : Q) : rint x = Qfloor x \/ rint x = (Qfloor x + 1)%Z.
Proof.
  unfold rint. destruct (2 * (x - inject_Z (Qfloor x)) ?= 1)%Q; auto.
  destruct (Z.even (Qfloor x)); auto.
Qed.

Lemma rint_monotone (x y : Q) : (x <= y)%Q -> (rint x <= rint y)%Z.
Proof.
  intros Hxy. pose proof (Qfloor_resp_le x y Hxy) as Hf.
  destruct (Z.eq_dec (Qfloor x) (Qfloor y)) as [E|E].
  - unfold rint. rewrite E.
    assert (Hd : (2 * (x - inject_Z (Qfloor y)) <= 2 * (y - inject_Z (Qfloor y)))%Q)
      by lra.
    set (dx := (2 * (x - inject_Z (Qfloor y)))%Q) in *.
    set (dy := (2 * (y - inject_Z (Qfloor y)))%Q) in *.
    destruct (dx ?= 1)%Q eqn:Cx; destruct (dy ?= 1)%Q eqn:Cy;
      try (destruct (Z.even (Qfloor y))); try lia; exfalso;
      repeat match goal with
             | H : (_ ?= _)%Q = Eq |- _ => apply Qeq_alt in H
             | H : (_ ?= _)%Q = Lt |- _ => apply Qlt_alt in H
             | H : (_ ?= _)%Q = Gt |- _ => apply Qgt_alt in H
             end; lra.
  - destruct (rint_range x) as [Hx|Hx], (rint_range y) as [Hy|Hy]; lia.
Qed.

Lemma pos_of_nat_Z (n : nat) : 0 < n -> Z.pos (Pos.of_nat n) = Z.of_nat n.
Proof.
  destruct n as [|k]; [lia|]. intros _.
  rewrite <- Pos.of_nat_succ, Zpos_P_of_succ_nat, Nat2Z.inj_succ. reflexivity.
Qed.

Lemma pct_finite (n total : nat) :
  0 < total ->
  pct n total
  = Finite (Qred (rint ((Z.of_nat n # Pos.of_nat total) * 100 * 100)%Q # 100)).
Proof. destruct total as [|k]; [lia|]. intros _. reflexivity. Qed.

Lemma ratio_monotone (n1 n2 total : nat) :
  n1 <= n2 ->
  ((Z.of_nat n1 # Pos.of_nat total) * 100 * 100
   <= (Z.of_nat n2 # Pos.of_nat total) * 100 * 100)%Q.
Proof.
  intros H.
  assert (E : (Z.of_nat n1 # Pos.of_nat total <= Z.of_nat n2 # Pos.of_nat total)%Q).
  { unfold Qle; simpl. apply Z.mul_le_mono_nonneg_r; lia. }
  lra.
Qed.

Lemma ratio_range (n total : nat) :
  0 < total -> n <= total ->
  (0 <= (Z.of_nat n # Pos.of_nat total) * 100 * 100
   /\ (Z.of_nat n # Pos.of_nat total) * 100 * 100 <= inject_Z 10000)%Q.
Proof.
  intros Ht Hn.
  assert (E0 : (0 <= Z.of_nat n # Pos.of_nat total)%Q).
  { unfold Qle; simpl. lia. }
  assert (E1 : (Z.of_nat n # Pos.of_nat total <= 1)%Q).
  { unfold Qle; simpl. rewrite pos_of_nat_Z by assumption. lia. }
  assert (E2 : (inject_Z 10000 == 10000)%Q) by reflexivity.
  split; lra.
Qed.

Lemma ratio_full (n : nat) :
  0 < n -> ((Z.of_nat n # Pos.of_nat n) * 100 * 100 == inject_Z 10000)%Q.
Proof.
  intros Hn.
  assert (E1 : (Z.of_nat n # Pos.of_nat n == 1)%Q).
  { unfold Qeq; simpl. rewrite pos_of_nat_Z by assumption. lia. }
  rewrite E1. reflexivity.
Qed.

Lemma pct_range (n total : nat) :
  0 < total -> n <= total ->
  exists q, pct n total = Finite q /\ (0 <= q)%Q /\ (q <= 100)%Q.
Proof.
  intros Ht Hn. rewrite pct_finite by assumption.
  destruct (ratio_range Ht Hn) as [H0 H1].
  apply rint_monotone in H0, H1.
  change 0%Q with (inject_Z 0) in H0. rewrite rint_inject_Z in H0, H1.
  eexists. split; [reflexivity|]. rewrite Qred_correct.
  split; unfold Qle; simpl; lia.
Qed.

Lemma pct_full (n : nat) : 0 < n -> pct n n = Finite 100.
Proof.
  intros Hn. rewrite pct_finite by assumption.
  rewrite (rint_comp (ratio_full Hn)), rint_inject_Z. reflexivity.
Qed.

Lemma pct_monotone (n1 n2 total : nat) :
  0 < total -> n1 <= n2 ->
  number_leb (pct n2 total) (pct n1 total) = true ->
  pct n1 total = pct n2 total.
Proof.
  intros Ht Hn Hle. rewrite !pct_finite in * by assumption.
  pose proof (rint_monotone (ratio_monotone total Hn)) as Hm.
  cbn [number_leb] in Hle. apply Qle_bool_iff in Hle. rewrite !Qred_correct in Hle.
  unfold Qle in Hle; cbn [Qnum Qden] in Hle.
  f_equal. f_equal. f_equal. lia.
Qed.

Lemma count_na_le_length (v : list scalar) : count_na v <= List.length v.
Proof. unfold count_na. apply filter_length_le. Qed.

Lemma count_na_all (v : list scalar) :
  Forall (fun x => isna x = true) v -> count_na v = List.length v.
Proof.
  unfold count_na. induction 1 as [|x v Hx _ IH]; simpl; [reflexivity|].
  rewrite Hx. simpl. now rewrite IH.
Qed.

Lemma StronglySorted_weaken (R R' : row -> row -> Prop) (P : row -> Prop) (t : table) :
  (forall a b, P a -> P b -> R a b -> R' a b) ->
  Forall P t -> StronglySorted R t -> StronglySorted R' t.
Proof.
  intros HR HP Hs. induction Hs as [|a t Hs IH Hall]; constructor.
  - apply IH. now inversion HP.
  - inversion HP as [|? ? Pa Pt]; subst. rewrite Forall_forall in *.
    intros b Hb. apply HR; auto.
Qed.

Section PercentageFacts.

Variable sort_values : table -> table.
Hypothesis sort_values_sorts : sorts sort_values.

Lemma table_rows (df : frame) :
  Forall (fun r => exists c, In c df /\ r = row_of (len df) c)
         (make_missingness_table sort_values df).
Proof.
  apply Permutation_Forall with (map (row_of (len df)) df).
  - apply Permutation_sym. now apply missingness_rows.
  - apply Forall_forall. intros r Hr. apply in_map_iff in Hr.
    destruct Hr as [c [<- Hc]]. now exists c.
Qed.

(** X7. In the table of a frame with at least one row whose columns all
    have as many cells as the frame has rows, no count exceeds the number
    of rows and every percentage is a number between 0 and 100. *)
Theorem missingness_counts_and_percentages_in_range (df : frame) :
  rectangular df -> 0 < len df ->
  Forall (fun r => missing_n r <= len df
                   /\ exists q, missing_pct r = Finite q /\ (0 <= q)%Q /\ (q <= 100)%Q)
         (make_missingness_table sort_values df).
Proof.
  intros Hrect Hlen. apply Forall_impl with (2 := table_rows df).
  intros r [c [Hc ->]]. unfold row_of; simpl.
  unfold rectangular in Hrect. rewrite Forall_forall in Hrect.
  assert (Hn : count_na (snd c) <= len df).
  { rewrite <- (Hrect c Hc). apply count_na_le_length. }
  split; [exact Hn | now apply pct_range].
Qed.

(** X8. In the table of a frame with at least one row, a row never
    stands before a row with more missing cells, unless both show the
    same percentage (which happens when rounding to two decimals makes
    them equal). *)
Theorem missingness_order_follows_counts (df : frame) :
  0 < len df ->
  StronglySorted (fun r1 r2 => missing_n r1 < missing_n r2 ->
                               missing_pct r1 = missing_pct r2)
                 (make_missingness_table sort_values df).
Proof.
  intros Hlen.
  apply StronglySorted_weaken
    with (R := fun r1 r2 => may_precede r1 r2 = true)
         (P := fun r => exists c, In c df /\ r = row_of (len df) c).
  - intros a b [ca [_ ->]] [cb [_ ->]] Hab Hlt. unfold row_of in *; simpl in *.
    unfold may_precede in Hab; simpl in Hab.
    apply pct_monotone; [assumption | lia |].
    destruct (pct (count_na (snd cb)) (len df)) eqn:E; try assumption.
    rewrite pct_finite in E by assumption. discriminate.
  - apply table_rows.
  - unfold make_missingness_table. apply (sorts_sorted sort_values_sorts).
Qed.

(** X9. A column whose cells are all missing, in a frame with at least
    one row, is listed with the number of rows as its count and 100 as
    its percentage. *)
Theorem fully_missing_column_is_100_percent (df : frame) (c : column) :
  In c df -> 0 < len df -> List.length (snd c) = len df ->
  Forall (fun x => isna x = true) (snd c) ->
  In (Row (fst c) (len df) (Finite 100)) (make_missingness_table sort_values df).
Proof.
  intros Hc Hlen Hrows Hall.
  apply Permutation_in with (map (row_of (len df)) df).
  - apply Permutation_sym. now apply missingness_rows.
  - apply in_map_iff. exists c. split; [|assumption].
    unfold row_of. rewrite (count_na_all Hall), Hrows. now rewrite pct_full.
Qed.

End PercentageFacts.

(** ** What a run of [start_imputation] leaves behind *)

Lemma save_workbook_effect (sheets : list (string * sheet)) (w : world) :
  data (save_workbook sheets w) = data w
  /\ curselection (save_workbook sheets w) = curselection w
  /\ output_excel_path (save_workbook sheets w) = output_excel_path w
  /\ output_folder (save_workbook sheets w) = output_folder w
  /\ entropy (save_workbook sheets w) = entropy w
  /\ dialogs (save_workbook sheets w) = dialogs w
  /\ files (save_workbook sheets w)
     = (files w ++ workbook_at (output_excel_path w) sheets)%list.
Proof.
  unfold save_workbook, workbook_at.
  destruct (chosen (output_excel_path w)); simpl; repeat split.
  now rewrite app_nil_r.
Qed.

Lemma save_figures_effect (missing : list string) (w : world) :
  data (save_figures missing w) = data w
  /\ curselection (save_figures missing w) = curselection w
  /\ output_excel_path (save_figures missing w) = output_excel_path w
  /\ output_folder (save_figures missing w) = output_folder w
  /\ entropy (save_figures missing w) = entropy w
  /\ dialogs (save_figures missing w) = dialogs w
  /\ files (save_figures missing w)
     = (files w ++ figures_at (output_folder w) missing)%list.
Proof.
  unfold save_figures, figures_at.
  destruct (chosen (output_folder w)); simpl; repeat split.
  now rewrite app_nil_r.
Qed.

Lemma sanitize_error_from_pandas
  (floatify : string -> option number) (num_cols : list string) (data : frame) (e : exn) :
  sanitize floatify num_cols data = inl e -> from_pandas e.
Proof.
  unfold sanitize. intros He.
  destruct (coerce_columns_outcome floatify num_cols
              (replace blank_to_nan (replace inf_to_nan data)))
    as [[_ Hok]|[col [_ [[_ H]|[_ H]]]]]; rewrite He in *.
  - discriminate.
  - injection H as ->. unfold from_pandas. eauto.
  - injection H as ->. unfold from_pandas. auto.
Qed.

Section RunEffects.

Variable floatify : string -> option number.
Variable sort_values : table -> table.
Variable kernel : Type.
Variable mf_ImputationKernel : frame -> option Z -> N -> result kernel.
Variable mice_iteration : kernel -> result kernel.
Variable complete_data : kernel -> nat -> result frame.

Abbreviation run_of := (start_imputation floatify sort_values
                          mf_ImputationKernel mice_iteration complete_data).

(** The files and message boxes of a run, outcome by outcome *)
Lemma run_effects (w : world) :
  (data (fst (run_of w)) = data w
   /\ curselection (fst (run_of w)) = curselection w
   /\ output_excel_path (fst (run_of w)) = output_excel_path w
   /\ output_folder (fst (run_of w)) = output_folder w
   /\ entropy (fst (run_of w)) = entropy w)
  /\ match snd (run_of w) with
     | NoData =>
         files (fst (run_of w)) = files w
         /\ dialogs (fst (run_of w)) = (dialogs w ++ [showerror_no_data])%list
     | Raised e => fst (run_of w) = w /\ from_pandas e
     | NothingToImpute t df =>
         files (fst (run_of w))
         = (files w ++ workbook_at (output_excel_path w)
                         [("Missingness", TableSheet t);
                          ("Data_Original", FrameSheet df)])%list
         /\ dialogs (fst (run_of w)) = (dialogs w ++ [showinfo_no_missing])%list
     | Imputed t df out =>
         files (fst (run_of w))
         = (files w ++ workbook_at (output_excel_path w)
                         [("Missingness", TableSheet t);
                          ("Data_Original", FrameSheet df);
                          ("Data_Imputed", FrameSheet out)]
                    ++ figures_at (output_folder w) (map fst (filter has_na df)))%list
         /\ dialogs (fst (run_of w)) = (dialogs w ++ [showinfo_done])%list
     | Failed t df e =>
         files (fst (run_of w)) = files w
         /\ dialogs (fst (run_of w)) = (dialogs w ++ [showerror_failed e])%list
     end.
Proof.
  unfold start_imputation.
  destruct (data w) as [raw|] eqn:Hd; [|simpl; auto 10].
  destruct (sanitize floatify _ raw) as [e|df] eqn:Hs.
  - simpl. repeat split; try reflexivity; try assumption.
    eapply sanitize_error_from_pandas; eassumption.
  - destruct (missing_columns df) as [e|missing] eqn:Hm.
    + simpl. repeat split; try reflexivity; try assumption.
      destruct (NoDup_dec string_dec (columns df)) as [Hnd|Hdup].
      * rewrite missing_columns_ok in Hm by assumption. discriminate.
      * rewrite missing_columns_repeated in Hm by assumption.
        injection Hm as <-. unfold from_pandas. auto.
    + destruct (@missing_columns_inr df missing Hm) as [_ Hmiss].
      destruct missing as [|c cs].
      * cbv zeta.
        pose proof (save_workbook_effect
                      [("Missingness", TableSheet (make_missingness_table sort_values df));
                       ("Data_Original", FrameSheet df)] w) as Hw.
        simpl. destruct Hw as [W1 [W2 [W3 [W4 [W5 [W6 W7]]]]]].
        repeat split; congruence.
      * destruct (impute _ _ _ df (entropy w)) as [e|out];
          [simpl; repeat split; try reflexivity; assumption|].
        cbv zeta.
        set (sheets := [("Missingness", TableSheet (make_missingness_table sort_values df));
                        ("Data_Original", FrameSheet df);
                        ("Data_Imputed", FrameSheet out)]).
        pose proof (save_workbook_effect sheets w) as Hw.
        pose proof (save_figures_effect (c :: cs) (save_workbook sheets w)) as Hf.
        cbn [fst snd messagebox data curselection output_excel_path output_folder
             entropy files dialogs].
        rewrite <- Hmiss.
        destruct Hw as [W1 [W2 [W3 [W4 [W5 [W6 W7]]]]]].
        destruct Hf as [F1 [F2 [F3 [F4 [F5 [F6 F7]]]]]].
        repeat split; try congruence.
        rewrite F7, W7, W4. now rewrite app_assoc.
Qed.

End RunEffects.



Section RunEffectFacts.

Variable floatify : string -> option number.
Variable sort_values : table -> table.
Variable kernel : Type.
Variable mf_ImputationKernel : frame -> option Z -> N -> result kernel.
Variable mice_iteration : kernel -> result kernel.
Variable complete_data : kernel -> nat -> result frame.

Abbreviation the_run := (start_imputation floatify sort_values
                           mf_ImputationKernel mice_iteration complete_data).





Lemma run_writes_nothing_without_path (w : world) :
  chosen (output_excel_path w) = None ->
  exists new, files (fst (the_run w)) = (files w ++ new)%list
              /\ Forall (fun f => is_workbook f = false) new.
Proof.
  intros Hp.
  destruct (run_effects floatify sort_values mf_ImputationKernel mice_iteration
                        complete_data w) as [_ Ho].
  assert (Hfig : forall p m, Forall (fun f => is_workbook f = false) (figures_at p m)).
  { intros p m. unfold figures_at. destruct (chosen p); [|constructor].
    apply Forall_forall. intros f Hf. apply in_map_iff in Hf.
    destruct Hf as [x [<- _]]. reflexivity. }
  destruct (snd (the_run w)) as [|e|t df|t df out|t df e].
  - exists []. destruct Ho as [Hf _]. rewrite app_nil_r. split; [assumption|constructor].
  - exists []. destruct Ho as [Ho _]. rewrite Ho, app_nil_r. split; [reflexivity|constructor].
  - destruct Ho as [Hf _]. unfold workbook_at in Hf. rewrite Hp in Hf.
    exists []. split; [assumption|constructor].
  - destruct Ho as [Hf _]. unfold workbook_at in Hf. rewrite Hp in Hf. simpl in Hf.
    eexists. split; [exact Hf | apply Hfig].
  - exists []. destruct Ho as [Hf _]. rewrite app_nil_r. split; [assumption|constructor].
Qed.

Lemma run_writes_no_picture_without_folder (w : world) :
  chosen (output_folder w) = None ->
  exists new, files (fst (the_run w)) = (files w ++ new)%list
              /\ Forall (fun f => is_workbook f = true) new.
Proof.
  intros Hp.
  destruct (run_effects floatify sort_values mf_ImputationKernel mice_iteration
                        complete_data w) as [_ Ho].
  assert (Hwb : forall p sh, Forall (fun f => is_workbook f = true) (workbook_at p sh)).
  { intros p sh. unfold workbook_at. destruct (chosen p); repeat constructor. }
  destruct (snd (the_run w)) as [|e|t df|t df out|t df e].
  - exists []. destruct Ho as [Hf _]. rewrite app_nil_r. split; [assumption|constructor].
  - exists []. destruct Ho as [Ho _]. rewrite Ho, app_nil_r. split; [reflexivity|constructor].
  - destruct Ho as [Hf _]. eexists. split; [exact Hf | apply Hwb].
  - destruct Ho as [Hf _]. unfold figures_at in Hf. rewrite Hp in Hf.
    rewrite app_nil_r in Hf. eexists. split; [exact Hf | apply Hwb].
  - exists []. destruct Ho as [Hf _]. rewrite app_nil_r. split; [assumption|constructor].
Qed.

End RunEffectFacts.

(** ** The window as a whole *)

Lemma lower_app (s t : string) : lower (s ++ t) = lower s ++ lower t.
Proof. induction s as [|a s IH]; simpl; [reflexivity | now rewrite IH]. Qed.

Lemma endswith_iff (s t : string) : endswith s t = true <-> exists p, s = p ++ t.
Proof.
  induction s as [|a s IH]; cbn [endswith].
  - rewrite orb_false_r. split.
    + intros H. apply String.eqb_eq in H. subst t. now exists "".
    + intros [p H]. apply String.eqb_eq. destruct p; simpl in H; [|discriminate].
      exact H.
  - split.
    + intros H. apply orb_true_iff in H. destruct H as [H|H].
      * apply String.eqb_eq in H. subst t. now exists "".
      * apply IH in H. destruct H as [p ->]. now exists (String a p).
    + intros [p H]. apply orb_true_iff. destruct p as [|b p]; simpl in H.
      * left. apply String.eqb_eq. exact H.
      * right. injection H as _ ->. apply IH. now exists p.
Qed.

Section WindowFacts.

Variable L : Type.
Variable str : L -> string.
Variable read_csv : string -> result (list (L * list scalar)).
Variable read_excel : string -> result (list (L * list scalar)).
Variable floatify : string -> option number.
Variable sort_values : table -> table.
Variable kernel : Type.
Variable mf_ImputationKernel : frame -> option Z -> N -> result kernel.
Variable mice_iteration : kernel -> result kernel.
Variable complete_data : kernel -> nat -> result frame.

Abbreviation start := (start_imputation floatify sort_values
                         mf_ImputationKernel mice_iteration complete_data).
Abbreviation window_step := (step str read_csv read_excel floatify sort_values
                               mf_ImputationKernel mice_iteration complete_data).
Abbreviation window_after := (after str read_csv read_excel floatify sort_values
                                mf_ImputationKernel mice_iteration complete_data).

Lemma load_columns_consistent (g : gui) :
  consistent g -> consistent (fst (load_columns str read_csv read_excel g)).
Proof.
  intros Hg. unfold load_columns. destruct (file_path g) as [path|]; [|exact Hg].
  destruct (if endswith (lower path) ".csv" then read_csv path else read_excel path)
    as [e|df]; [exact Hg|].
  split; simpl; [reflexivity | constructor].
Qed.

Lemma step_consistent (g : gui) (a : action) :
  consistent g -> consistent (window_step g a).
Proof.
  intros Hg. destruct a as [answer|answer|answer|rows|]; simpl.
  - unfold select_file. destruct answer as [|c rest]; [exact Hg|].
    apply load_columns_consistent. exact Hg.
  - exact Hg.
  - exact Hg.
  - destruct Hg as [H1 _]. split; simpl; [exact H1|].
    apply Forall_forall. intros i Hi. apply filter_In in Hi.
    destruct Hi as [_ Hi]. now apply Nat.ltb_lt.
  - destruct Hg as [H1 H2].
    destruct (run_effects floatify sort_values mf_ImputationKernel mice_iteration
                          complete_data (session g)) as [[E1 [E2 _]] _].
    split; simpl; [now rewrite E1 | now rewrite E2].
Qed.

Lemma after_consistent (actions : list action) :
  forall g, consistent g -> consistent (window_after actions g).
Proof.
  induction actions as [|a rest IH]; intros g Hg; simpl; [exact Hg|].
  apply IH. now apply step_consistent.
Qed.

(** X14. Whatever the user does with the window, in whatever order
    (picking files that load or fail to load, cancelling dialogs, picking
    rows, starting runs), the listbox always holds exactly the labels of
    the loaded data, in order, and only rows of the listbox are selected:
    a run reads the names of the continuous columns from the data it
    works on. *)
Theorem listbox_always_matches_data (ent : N) (actions : list action) :
  let g := window_after actions (initial ent) in
  listbox_num g = match data (session g) with
                  | Some df => columns df
                  | None => []
                  end
  /\ Forall (fun i => i < List.length (listbox_num g)) (curselection (session g)).
Proof.
  apply (after_consistent actions). split; simpl; [reflexivity | constructor].
Qed.



(** X16. When the reader raises on the file the user picked, the
    exception leaves [select_file], the path and the label of the window
    show the new file, and the data loaded before, the listbox and the
    selection stay as they were. *)
Theorem failed_load_keeps_the_old_data (answer : string) (g : gui) (e : exn) :
  answer <> "" ->
  (if endswith (lower answer) ".csv" then read_csv answer else read_excel answer) = inl e ->
  snd (select_file str read_csv read_excel answer g) = Some e
  /\ session (fst (select_file str read_csv read_excel answer g)) = session g
  /\ listbox_num (fst (select_file str read_csv read_excel answer g)) = listbox_num g
  /\ file_path (fst (select_file str read_csv read_excel answer g)) = Some answer
  /\ file_label (fst (select_file str read_csv read_excel answer g)) = Some answer.
Proof.
  intros Hne Hread. unfold select_file.
  destruct answer as [|c rest]; [congruence|].
  unfold load_columns. cbv zeta. cbn [file_path]. rewrite Hread.
  repeat split.
Qed.

(** X17. Cancelling the dialog of the Excel output after a path was
    picked leaves the label showing the earlier path, yet the next run
    writes no workbook: every file it adds is a picture. *)
Theorem cancelled_excel_dialog_disables_the_workbook (g : gui) (f : file) :
  let g' := select_output_excel "" g in
  excel_label g' = excel_label g
  /\ (In f (files (fst (start (session g')))) ->
      In f (files (session g)) \/ is_workbook f = false).
Proof.
  intros g'. split; [reflexivity|].
  destruct (run_writes_nothing_without_path floatify sort_values mf_ImputationKernel
              mice_iteration complete_data (session g')) as [new [Hf Hnew]];
    [reflexivity|].
  rewrite Hf. intros Hin. apply in_app_or in Hin. destruct Hin as [Hin|Hin].
  - left. exact Hin.
  - right. rewrite Forall_forall in Hnew. now apply Hnew.
Qed.

(** X19. Cancelling the dialog of the picture folder after a folder
    was picked leaves the label showing the earlier folder, yet the next
    run writes no picture: every file it adds is a workbook. *)
Theorem cancelled_folder_dialog_disables_the_pictures (g : gui) (f : file) :
  let g' := select_output_folder "" g in
  folder_label g' = folder_label g
  /\ (In f (files (fst (start (session g')))) ->
      In f (files (session g)) \/ is_workbook f = true).
Proof.
  intros g'. split; [reflexivity|].
  destruct (run_writes_no_picture_without_folder floatify sort_values
              mf_ImputationKernel mice_iteration complete_data (session g'))
    as [new [Hf Hnew]]; [reflexivity|].
  rewrite Hf. intros Hin. apply in_app_or in Hin. destruct Hin as [Hin|Hin].
  - left. exact Hin.
  - right. rewrite Forall_forall in Hnew. now apply Hnew.
Qed.

(** X18. A path that ends in .csv in any letter case (.CSV, .Csv, ...)
    is read with [read_csv]: what [read_excel] would do with it plays no
    part in loading it. *)
Theorem csv_extension_in_any_case
  (read_excel' : string -> result (list (L * list scalar)))
  (stem ext : string) (g : gui) :
  lower ext = ".csv" ->
  file_path g = Some (stem ++ ext) ->
  load_columns str read_csv read_excel g = load_columns str read_csv read_excel' g
  /\ (forall e, read_csv (stem ++ ext) = inl e ->
                load_columns str read_csv read_excel g = (g, Some e)).
Proof.
  intros Hext Hpath. unfold load_columns. rewrite Hpath.
  assert (E : endswith (lower (stem ++ ext)) ".csv" = true).
  { apply endswith_iff. exists (lower stem). now rewrite lower_app, Hext. }
  rewrite E. split; [reflexivity|]. intros e He. now rewrite He.
Qed.

End WindowFacts.

(** ** More properties on the example data *)

Abbreviation donor_window :=
  (after py_str disk_csv disk_excel floatify_literals sort_values_stable
         donor_ImputationKernel donor_mice_iteration donor_complete_data).

(** X2 on the sheet with a text column *)
Lemma sanitize_keeps_shape_witness :
  let df := [("age", [whole 23; nan; whole 41]); ("grade", [Str "A"; Str "B"; Str "A"])] in
  sanitize floatify_literals ["age"] text_raw = inr df
  /\ columns df = columns text_raw
  /\ map (fun c : column => List.length (snd c)) df
     = map (fun c : column => List.length (snd c)) text_raw
  /\ len df = len text_raw.
Proof.
  intros df.
  assert (H : sanitize floatify_literals ["age"] text_raw = inr df) by reflexivity.
  split; [exact H|].
  exact (sanitize_keeps_shape floatify_literals ["age"] text_raw H).
Defined.

(** X3 on the sheet with a text column, at a cell of the text column *)
Lemma sanitize_leaves_no_blank_no_text_no_infinity_witness :
  let df := [("age", [whole 23; nan; whole 41]); ("grade", [Str "A"; Str "B"; Str "A"])] in
  let c := ("grade", [Str "A"; Str "B"; Str "A"]) in
  sanitize floatify_literals ["age"] text_raw = inr df
  /\ In c df /\ In (Str "B") (snd c)
  /\ (forall s, Str "B" = Str s -> blank s = false /\ mem (fst c) ["age"] = false)
  /\ (Str "B" = Num PosInf \/ Str "B" = Num NegInf -> mem (fst c) ["age"] = true).
Proof.
  intros df c.
  assert (H1 : sanitize floatify_literals ["age"] text_raw = inr df) by reflexivity.
  assert (H2 : In c df) by (right; left; reflexivity).
  assert (H3 : In (Str "B") (snd c)) by (right; left; reflexivity).
  split; [exact H1|]. split; [exact H2|]. split; [exact H3|].
  exact (sanitize_leaves_no_blank_no_text_no_infinity
           floatify_literals ["age"] text_raw c (Str "B") H1 H2 H3).
Defined.

(** X4 on the sheet with a text column: the blank cell of [age] is the
    one missing cell the cleaning adds. *)
Lemma sanitize_only_adds_missing_witness :
  let df := [("age", [whole 23; nan; whole 41]); ("grade", [Str "A"; Str "B"; Str "A"])] in
  sanitize floatify_literals ["age"] text_raw = inr df
  /\ Forall2 (fun c c' : column =>
                Forall2 (fun x x' => (isna x = true -> isna x' = true)
                                     /\ (forall q, x = Num (Finite q) -> x' = x))
                        (snd c) (snd c')
                /\ count_na (snd c) <= count_na (snd c'))
             text_raw df
  /\ total_na text_raw <= total_na df.
Proof.
  intros df.
  assert (H : sanitize floatify_literals ["age"] text_raw = inr df) by reflexivity.
  split; [exact H|].
  exact (sanitize_only_adds_missing floatify_literals ["age"] text_raw H).
Defined.

(** X5 on the sheet with a text column: [age] listed once or twice *)
Lemma sanitize_ignores_order_of_selection_witness :
  let df := [("age", [whole 23; nan; whole 41]); ("grade", [Str "A"; Str "B"; Str "A"])] in
  sanitize floatify_literals ["age"] text_raw = inr df
  /\ (forall x, In x ["age"] <-> In x ["age"; "age"])
  /\ sanitize floatify_literals ["age"; "age"] text_raw = inr df.
Proof.
  intros df.
  assert (H1 : sanitize floatify_literals ["age"] text_raw = inr df) by reflexivity.
  assert (H2 : forall x, In x ["age"] <-> In x ["age"; "age"]).
  { intros x; simpl; tauto. }
  split; [exact H1|]. split; [exact H2|].
  exact (sanitize_ignores_order_of_selection
           floatify_literals ["age"] ["age"; "age"] text_raw H1 H2).
Defined.

(** X7 on the frame with a fully missing column *)
Lemma missingness_counts_and_percentages_in_range_witness :
  sorts sort_values_stable /\ rectangular gap_raw /\ 0 < len gap_raw
  /\ Forall (fun r => missing_n r <= len gap_raw
                      /\ exists q, missing_pct r = Finite q /\ (0 <= q)%Q /\ (q <= 100)%Q)
            (make_missingness_table sort_values_stable gap_raw).
Proof.
  assert (H1 : rectangular gap_raw) by (repeat constructor).
  assert (H2 : 0 < len gap_raw) by (simpl; lia).
  split; [exact sort_values_stable_sorts|]. split; [exact H1|]. split; [exact H2|].
  exact (missingness_counts_and_percentages_in_range sort_values_stable_sorts H1 H2).
Defined.

(** X8 on the frame with a fully missing column *)
Lemma missingness_order_follows_counts_witness :
  sorts sort_values_stable /\ 0 < len gap_raw
  /\ StronglySorted (fun r1 r2 => missing_n r1 < missing_n r2 ->
                                  missing_pct r1 = missing_pct r2)
                    (make_missingness_table sort_values_stable gap_raw).
Proof.
  assert (H : 0 < len gap_raw) by (simpl; lia).
  split; [exact sort_values_stable_sorts|]. split; [exact H|].
  exact (missingness_order_follows_counts sort_values_stable_sorts gap_raw H).
Defined.

(** X9 on the frame with a fully missing column: [note] shows 100 *)
Lemma fully_missing_column_is_100_percent_witness :
  let c := ("note", [nan; nan; nan; nan]) in
  sorts sort_values_stable /\ In c gap_raw /\ 0 < len gap_raw
  /\ List.length (snd c) = len gap_raw
  /\ Forall (fun x => isna x = true) (snd c)
  /\ In (Row "note" 4 (Finite 100)) (make_missingness_table sort_values_stable gap_raw).
Proof.
  intros c.
  assert (H1 : In c gap_raw) by (right; left; reflexivity).
  assert (H2 : 0 < len gap_raw) by (simpl; lia).
  assert (H3 : List.length (snd c) = len gap_raw) by reflexivity.
  assert (H4 : Forall (fun x => isna x = true) (snd c)) by (repeat constructor).
  split; [exact sort_values_stable_sorts|]. split; [exact H1|]. split; [exact H2|].
  split; [exact H3|]. split; [exact H4|].
  exact (fully_missing_column_is_100_percent sort_values_stable_sorts gap_raw c
           H1 H2 H3 H4).
Defined.



(** X16 with a file that is not on the disk *)
Lemma failed_load_keeps_the_old_data_witness :
  let g := donor_window [press_select_file "data.CSV"; pick_rows [0]] (initial 7) in
  let g' := fst (select_file py_str disk_csv disk_excel "nowhere.csv" g) in
  "nowhere.csv" <> ""
  /\ (if endswith (lower "nowhere.csv") ".csv"
      then disk_csv "nowhere.csv" else disk_excel "nowhere.csv") = inl FileNotFoundError
  /\ snd (select_file py_str disk_csv disk_excel "nowhere.csv" g) = Some FileNotFoundError
  /\ session g' = session g
  /\ listbox_num g' = listbox_num g
  /\ file_path g' = Some "nowhere.csv"
  /\ file_label g' = Some "nowhere.csv".
Proof.
  intros g g'.
  assert (H1 : "nowhere.csv" <> "") by discriminate.
  assert (H2 : (if endswith (lower "nowhere.csv") ".csv"
                then disk_csv "nowhere.csv" else disk_excel "nowhere.csv")
               = inl FileNotFoundError) by reflexivity.
  split; [exact H1|]. split; [exact H2|].
  exact (failed_load_keeps_the_old_data py_str disk_csv disk_excel g H1 H2).
Defined.

(** X18 with the file data.CSV *)
Lemma csv_extension_in_any_case_witness :
  let g := fst (select_file py_str disk_csv disk_excel "data.CSV" (initial 7)) in
  lower ".CSV" = ".csv"
  /\ file_path g = Some ("data" ++ ".CSV")
  /\ load_columns py_str disk_csv disk_excel g
     = load_columns py_str disk_csv (fun _ => raise FileNotFoundError) g
  /\ (forall e, disk_csv ("data" ++ ".CSV") = inl e ->
                load_columns py_str disk_csv disk_excel g = (g, Some e)).
Proof.
  intros g.
  assert (H1 : lower ".CSV" = ".csv") by reflexivity.
  assert (H2 : file_path g = Some ("data" ++ ".CSV")) by reflexivity.
  split; [exact H1|]. split; [exact H2|].
  exact (csv_extension_in_any_case py_str disk_csv disk_excel
           (fun _ => raise FileNotFoundError) "data" ".CSV" g H1 H2).
Defined.
